(** * The AI Practitioner's Path: progress store, sanitizer and module navigation

    A shallow embedding of [js/progress.js] (class [ProgressTracker]),
    of the storage read filter of [js/app.js] ([validateProgressData] and the
    [localStorage.getItem] override), of [ContentLoader.sanitizeHTML] in
    [js/content.js] and of [Router.navigateModule] in [js/router.js],
    followed by the properties the specification states about them.

    Further parts of the same files are embedded after these: the counts
    and the percentage of [ProgressTracker], its event system, the route
    dispatch, the buttons, the mission list and the theme of [Router],
    and [ContentLoader.loadModuleContent] with its cache; their
    properties follow those of the specification. *)

From Stdlib Require Import ZArith List String Ascii Bool Lia.
From Stdlib Require Import DecimalString DecimalPos DecimalZ.
Import ListNotations.
Local Open Scope string_scope.
Local Open Scope Z_scope.

(** ** The JavaScript values the code handles *)

Module JS.

(** A Number is modelled by the integer it holds, plus [NaN].  The model
    covers the integer-valued Numbers whose decimal rendering is plain
    digits (magnitude below 10^21); fractional Numbers, the infinities and
    larger magnitudes are outside it. *)
Inductive number : Type :=
| NaN
| Int (z : Z).

(** Plain data: what [JSON.parse] produces and what callers pass.  An
    object is the list of its own enumerable properties, a key at most
    once, in the order [Object.entries] lists them; an array is the
    object of its index keys.  An engine lists integer keys in ascending
    order before the others; [setProp] below appends a new key at the end
    instead, and the properties proved read records through [lookup]
    only, which no order changes.  Functions, symbols and objects with a
    [toString] of their own are outside the model. *)
#[warnings="-register-all"]
Inductive value : Type :=
| JUndefined
| JNull
| JBool (b : bool)
| JNumber (n : number)
| JString (s : string)
| JObject (props : list (string * value)).

Definition props := list (string * value).

(** *** Own properties as association lists *)

Fixpoint lookup (k : string) (o : props) : option value :=
  match o with
  | [] => None
  | (k', v) :: rest => if String.eqb k k' then Some v else lookup k rest
  end.

(** [o[k] = v]: overwrite the property in place, or add it. *)
Fixpoint setProp (k : string) (v : value) (o : props) : props :=
  match o with
  | [] => [(k, v)]
  | (k', v') :: rest =>
      if String.eqb k k' then (k, v) :: rest else (k', v') :: setProp k v rest
  end.

(** [delete o[k]]. *)
Definition delProp (k : string) (o : props) : props :=
  filter (fun kv => negb (String.eqb k (fst kv))) o.

Definition keys (o : props) : list string := map fst o.

(** *** Conversions *)

(** ToBoolean. *)
Definition truthy (v : value) : bool :=
  match v with
  | JUndefined | JNull => false
  | JBool b => b
  | JNumber NaN => false
  | JNumber (Int z) => negb (z =? 0)
  | JString s => negb (String.eqb s "")
  | JObject _ => true
  end.

Definition intToString (z : Z) : string :=
  NilZero.string_of_int (Z.to_int z).

(** ToString, which is also the property key a value denotes. *)
Definition ToString (v : value) : string :=
  match v with
  | JUndefined => "undefined"
  | JNull => "null"
  | JBool true => "true"
  | JBool false => "false"
  | JNumber NaN => "NaN"
  | JNumber (Int z) => intToString z
  | JString s => s
  | JObject _ => "[object Object]"
  end.

(** White space that [parseInt] skips, among the code units 0..255. *)
Definition isWhiteSpace (c : ascii) : bool :=
  let n := nat_of_ascii c in
  ((9 <=? n) && (n <=? 13))%nat || (n =? 32)%nat || (n =? 160)%nat.

Fixpoint trimStart (s : string) : string :=
  match s with
  | String c rest => if isWhiteSpace c then trimStart rest else s
  | EmptyString => s
  end.

(** Value of a character as a digit of the radix, if it is one. *)
Definition digitOf (radix : N) (c : ascii) : option N :=
  let n := N_of_ascii c in
  let d := (if (48 <=? n) && (n <=? 57) then Some (n - 48)
            else if (97 <=? n) && (n <=? 122) then Some (n - 87)
            else if (65 <=? n) && (n <=? 90) then Some (n - 55)
            else None)%N in
  match d with
  | Some k => if (k <? radix)%N then Some k else None
  | None => None
  end.

(** The longest prefix of radix digits, read left to right. *)
Fixpoint scanDigits (radix : N) (s : string) (acc : N) : N :=
  match s with
  | String c rest =>
      match digitOf radix c with
      | Some d => scanDigits radix rest (radix * acc + d)%N
      | None => acc
      end
  | EmptyString => acc
  end.

Definition startsWithDigit (radix : N) (s : string) : bool :=
  match s with
  | String c _ => match digitOf radix c with Some _ => true | None => false end
  | EmptyString => false
  end.

Definition readDigits (radix : N) (negative : bool) (s : string) : number :=
  if startsWithDigit radix s
  then let m := Z.of_N (scanDigits radix s 0) in
       Int (if negative then - m else m)
  else NaN.

Definition stripHexPrefix (s : string) : option string :=
  match s with
  | String "0" (String "x" rest) => Some rest
  | String "0" (String "X" rest) => Some rest
  | _ => None
  end.

Definition readUnsigned (negative : bool) (s : string) : number :=
  match stripHexPrefix s with
  | Some rest => readDigits 16 negative rest
  | None => readDigits 10 negative s
  end.

(** [parseInt(string)] without a radix argument, exact on the digits
    it reads. *)
Definition parseIntString (s : string) : number :=
  match trimStart s with
  | String "-" rest => readUnsigned true rest
  | String "+" rest => readUnsigned false rest
  | t => readUnsigned false t
  end.

(** [parseInt(v)]: the argument goes through ToString first. *)
Definition parseInt (v : value) : number := parseIntString (ToString v).

(** *** Operators on Numbers *)

(** [!n]. *)
Definition isFalsyNumber (n : number) : bool :=
  match n with
  | NaN => true
  | Int z => z =? 0
  end.

Definition isNaN (n : number) : bool :=
  match n with NaN => true | Int _ => false end.

(** [a < b], [a > b], [a <= b], [a >= b] against an integer; every
    comparison with [NaN] is false. *)
Definition ltZ (n : number) (b : Z) : bool :=
  match n with NaN => false | Int z => z <? b end.
Definition gtZ (n : number) (b : Z) : bool :=
  match n with NaN => false | Int z => b <? z end.
Definition leZ (n : number) (b : Z) : bool :=
  match n with NaN => false | Int z => z <=? b end.
Definition geZ (n : number) (b : Z) : bool :=
  match n with NaN => false | Int z => b <=? z end.

(** [typeof v === 'object' && v !== null], the objects of the model. *)
Definition isObject (v : value) : bool :=
  match v with JObject _ => true | _ => false end.

(** The own enumerable properties of a string: its characters under
    their indices. *)
Fixpoint stringEntries (i : Z) (s : string) : props :=
  match s with
  | String c rest =>
      (intToString i, JString (String c EmptyString)) :: stringEntries (i + 1) rest
  | EmptyString => []
  end.

(** An integer as a Number value. *)
Definition num (z : Z) : value := JNumber (Int z).

(** [{ ...v }]: a fresh object with the own enumerable properties. *)
Definition spread (v : value) : props :=
  match v with
  | JObject o => o
  | JString s => stringEntries 0 s
  | _ => []
  end.

(** [Object.entries(v)] for a [v] other than [null] and [undefined]. *)
Definition objectEntries (v : value) : props := spread v.

End JS.

Import JS.

(** ** Browser storage *)

Module Storage.

(** The text held under the progress key, seen through [JSON.parse]:
    either it does not parse, or it parses to a value. *)
Inductive item : Type :=
| Garbage
| Json (v : value).

(** The members [JSON.stringify] writes for an object, each value
    rewritten by [f]: a property holding [undefined] is omitted. *)
Fixpoint jsonMembers (f : value -> value) (o : list (string * value))
    : list (string * value) :=
  match o with
  | [] => []
  | (k, JUndefined) :: rest => jsonMembers f rest
  | (k, x) :: rest => (k, f x) :: jsonMembers f rest
  end.

(** What [JSON.stringify] followed by [JSON.parse] leaves of a value:
    [NaN] becomes [null], objects keep their written members. *)
Fixpoint jsonOf (v : value) : value :=
  match v with
  | JUndefined => JNull
  | JNumber NaN => JNull
  | JObject o => JObject (jsonMembers jsonOf o)
  | _ => v
  end.

(** [JSON.stringify(o)] of an object. *)
Definition stringify (o : props) : item := Json (jsonOf (JObject o)).

(** [localStorage] under the progress key: [None] when [getItem] yields
    [null] or the empty string. *)
Definition localStorage := option item.

End Storage.

Import Storage.

(** ** js/app.js: the storage read filter *)

Module App.

(** Inner loop of [validateProgressData]: the module entries of one
    mission, copied into the fresh object [acc]. *)
Fixpoint validateModules (missionNum : Z) (entries : props) (acc : props) : props :=
  match entries with
  | [] => acc
  | (module, timestamp) :: rest =>
      let moduleNum := parseIntString module in
      let maxModules := if missionNum =? 4 then 4 else 3 in
      if isNaN moduleNum || ltZ moduleNum 1 || gtZ moduleNum maxModules
      then validateModules missionNum rest acc
      else
        match moduleNum, timestamp with
        | Int n, JNumber t =>
            if gtZ t 0
            then validateModules missionNum rest (setProp (intToString n) timestamp acc)
            else validateModules missionNum rest acc
        | _, _ => validateModules missionNum rest acc
        end
  end.

Fixpoint validateMissions (entries : props) (validated : props) : props :=
  match entries with
  | [] => validated
  | (mission, modules) :: rest =>
      let missionNum := parseIntString mission in
      if isNaN missionNum || ltZ missionNum 1 || gtZ missionNum 5
      then validateMissions rest validated
      else
        match missionNum, modules with
        | Int m, JObject o =>
            validateMissions rest
              (setProp (intToString m) (JObject (validateModules m o [])) validated)
        | _, _ => validateMissions rest validated
        end
  end.

Definition validateProgressData (data : value) : props :=
  match data with
  | JObject o => validateMissions o []
  | _ => []
  end.

(** The replacement of [localStorage.getItem], for the progress key:
    the text read and the storage left behind. *)
Definition getItem (ls : localStorage) : option item * localStorage :=
  match ls with
  | None => (None, ls)
  | Some (Json parsed) => (Some (stringify (validateProgressData parsed)), ls)
  | Some Garbage => (Some (Json (JObject [])), None)
  end.

End App.

(** ** js/progress.js: class ProgressTracker *)

Module Progress.

(** [courseStructure]. *)
Definition totalMissions : Z := 5.

Definition modulesPerMissionTable : list (string * Z) :=
  [("1", 3); ("2", 3); ("3", 3); ("4", 4); ("5", 3)].

(** [this.courseStructure.modulesPerMission[key]], [None] for
    [undefined]; the keys the code looks up all parse as integers, so
    none names an inherited property. *)
Definition modulesPerMission (key : string) : option Z :=
  match find (fun kv => String.eqb key (fst kv)) modulesPerMissionTable with
  | Some (_, n) => Some n
  | None => None
  end.

(** [n > max] and [n <= max] where [max] may be [undefined]. *)
Definition gtMax (n : number) (max : option Z) : bool :=
  match max with Some b => gtZ n b | None => false end.
Definition leMax (n : number) (max : option Z) : bool :=
  match max with Some b => leZ n b | None => false end.

(** The tracker with the storage it persists to.  [progress] is
    [this.progress], always an object: the code only assigns it [{}], a
    spread, or a parsed value that passed [isValidProgressData].
    [emitted] counts the 'progressUpdate' notifications; the subscribers'
    callbacks are outside the model. *)
Record store : Type := mkStore {
  progress : props;
  storage : localStorage;
  emitted : nat
}.

(** [new ProgressTracker()] in a browser whose storage holds [ls]. *)
Definition constructor (ls : localStorage) : store := mkStore [] ls 0.

Definition withProgress (p : props) (st : store) : store :=
  mkStore p (storage st) (emitted st).

(** A call either returns or throws a TypeError; both leave a store. *)
Inductive outcome (A : Type) : Type :=
| Return (a : A) (st : store)
| TypeError (st : store).
Arguments Return {A} a st.
Arguments TypeError {A} st.

Definition finalStore {A} (r : outcome A) : store :=
  match r with Return _ st => st | TypeError st => st end.

(** 2020-01-01T00:00:00Z in milliseconds. *)
Definition minimumDate : Z := 1577836800000.

(** [now] is what [Date.now()] returns, taken as constant during a
    call. *)
Definition isValidTimestamp (now : Z) (timestamp : value) : bool :=
  match timestamp with
  | JNumber t => gtZ t 0 && leZ t now && gtZ t minimumDate
  | _ => false
  end.

(** The storage is taken to accept the write ([setItem] does not
    throw). *)
Definition saveProgress (st : store) : store :=
  mkStore (progress st) (Some (stringify (progress st))) (emitted st).

Definition emit (st : store) : store :=
  mkStore (progress st) (storage st) (S (emitted st)).

(** Inner loop of [isValidProgressData]. *)
Fixpoint validModuleEntries (now : Z) (maxModules : option Z) (entries : props) : bool :=
  match entries with
  | [] => true
  | (moduleStr, timestamp) :: rest =>
      let module := parseIntString moduleStr in
      if isFalsyNumber module || ltZ module 1 || gtMax module maxModules then false
      else if negb (isValidTimestamp now timestamp) then false
      else validModuleEntries now maxModules rest
  end.

Fixpoint validMissionEntries (now : Z) (entries : props) : bool :=
  match entries with
  | [] => true
  | (missionStr, modules) :: rest =>
      let mission := parseIntString missionStr in
      if isFalsyNumber mission || ltZ mission 1 || gtZ mission totalMissions then false
      else if negb (truthy modules) || negb (isObject modules) then false
      else if negb (validModuleEntries now
                      (modulesPerMission (ToString (JNumber mission))) (objectEntries modules))
      then false
      else validMissionEntries now rest
  end.

Definition isValidProgressData (now : Z) (data : value) : bool :=
  if negb (truthy data) || negb (isObject data) then false
  else validMissionEntries now (objectEntries data).

Definition isValidMission (mission : value) : bool :=
  let missionNum := parseInt mission in
  geZ missionNum 1 && leZ missionNum totalMissions.

Definition isValidMissionModule (mission module : value) : bool :=
  if negb (isValidMission mission) then false
  else
    let missionNum := parseInt mission in
    let moduleNum := parseInt module in
    let maxModules := modulesPerMission (ToString (JNumber missionNum)) in
    geZ moduleNum 1 && leMax moduleNum maxModules.

(** Is [k] an index of the string [s]? *)
Fixpoint isIndexOf (i : Z) (s : string) (k : string) : bool :=
  match s with
  | String _ rest => String.eqb k (intToString i) || isIndexOf (i + 1) rest k
  | EmptyString => false
  end.

(** [v[k]] for a [v] other than [null] and [undefined] and a key that
    parses as an integer (no inherited property has such a name). *)
Definition getProp (v : value) (k : string) : value :=
  match v with
  | JObject o => match lookup k o with Some x => x | None => JUndefined end
  | JString s => match lookup k (stringEntries 0 s) with Some x => x | None => JUndefined end
  | _ => JUndefined
  end.

Definition isModuleComplete (st : store) (mission module : value) : bool :=
  if negb (isValidMissionModule mission module) then false
  else
    match lookup (ToString mission) (progress st) with
    | Some v => if truthy v then truthy (getProp v (ToString module)) else false
    | None => false
    end.

(** [for (let i = 1; i <= hi; i++) body(i)], where the body may return
    early: [count] iterations starting at [i]. *)
Fixpoint forFrom {A : Type} (count : nat) (i : Z) (body : Z -> option A) : option A :=
  match count with
  | O => None
  | S count' =>
      match body i with
      | Some r => Some r
      | None => forFrom count' (i + 1) body
      end
  end.

Definition forUpTo {A : Type} (hi : option Z) (body : Z -> option A) : option A :=
  match hi with
  | Some h => forFrom (Z.to_nat h) 1 body
  | None => None
  end.

Definition isMissionComplete (st : store) (mission : value) : bool :=
  if negb (isValidMission mission) then false
  else
    let maxModules := modulesPerMission (ToString mission) in
    match forUpTo maxModules
            (fun module =>
               if negb (isModuleComplete st mission (JNumber (Int module)))
               then Some false else None)
    with
    | Some r => r
    | None => true
    end.

Definition getModuleCompletionTime (st : store) (mission module : value) : value :=
  if negb (isValidMissionModule mission module) then JNull
  else
    match lookup (ToString mission) (progress st) with
    | Some JUndefined | Some JNull | None => JNull
    | Some v => let t := getProp v (ToString module) in
                if truthy t then t else JNull
    end.

Definition getNextRecommendedModule (st : store) : option (Z * Z) :=
  forUpTo (Some totalMissions)
    (fun mission =>
       let maxModules := modulesPerMission (intToString mission) in
       forUpTo maxModules
         (fun module =>
            if negb (isModuleComplete st (JNumber (Int mission)) (JNumber (Int module)))
            then Some (mission, module) else None)).

(** Inner loop of [validateProgress]: [entries] is the snapshot taken by
    [Object.entries(modules)], [modules] the object being cleaned. *)
Fixpoint cleanModules (now : Z) (maxModules : option Z) (entries : props)
    (modules : props) (hasChanges : bool) : props * bool :=
  match entries with
  | [] => (modules, hasChanges)
  | (moduleStr, timestamp) :: rest =>
      let module := parseIntString moduleStr in
      if isFalsyNumber module || ltZ module 1 || gtMax module maxModules
         || negb (isValidTimestamp now timestamp)
      then cleanModules now maxModules rest (delProp moduleStr modules) true
      else cleanModules now maxModules rest modules hasChanges
  end.

(** [modules] is the object [progress[missionStr]] itself: what the
    inner loop deletes from it shows in the record. *)
Definition writeBack (missionStr : string) (modules : props) (p : props) : props :=
  match lookup missionStr p with
  | Some _ => setProp missionStr (JObject modules) p
  | None => p
  end.

(** Outer loop of [validateProgress] over the snapshot
    [Object.entries(this.progress)]; [None] when a TypeError is thrown. *)
Fixpoint cleanMissions (now : Z) (entries : props) (p : props) (hasChanges : bool)
    : props * option bool :=
  match entries with
  | [] => (p, Some hasChanges)
  | (missionStr, modules) :: rest =>
      let mission := parseIntString missionStr in
      if isFalsyNumber mission || ltZ mission 1 || gtZ mission totalMissions
      then cleanMissions now rest (delProp missionStr p) true
      else
        let maxModules := modulesPerMission (ToString (JNumber mission)) in
        match modules with
        | JObject o =>
            let (o', changed) := cleanModules now maxModules o o hasChanges in
            if (List.length (keys o') =? 0)%nat
            then cleanMissions now rest (delProp missionStr (writeBack missionStr o' p)) true
            else cleanMissions now rest (writeBack missionStr o' p) changed
        | JUndefined | JNull => (p, None)
        | JString (String _ _) => (p, None)
        | _ => cleanMissions now rest (delProp missionStr p) true
        end
  end.

Definition validateProgress (now : Z) (st : store) : outcome unit :=
  match cleanMissions now (progress st) (progress st) false with
  | (p, Some true) => Return tt (emit (saveProgress (withProgress p st)))
  | (p, Some false) => Return tt (withProgress p st)
  | (p, None) => TypeError (withProgress p st)
  end.

Definition setModuleCompletion (now : Z) (mission module completed : value)
    (st : store) : outcome bool :=
  if negb (isValidMissionModule mission module) then Return false st
  else
    let km := ToString mission in
    let kn := ToString module in
    let p := progress st in
    let finish (p' : props) :=
      Return true (emit (saveProgress (withProgress p' st))) in
    if truthy completed then
      let p1 := match lookup km p with
                | Some v => if truthy v then p else setProp km (JObject []) p
                | None => setProp km (JObject []) p
                end in
      match lookup km p1 with
      | Some (JObject o) =>
          finish (setProp km (JObject (setProp kn (JNumber (Int now)) o)) p1)
      | _ => TypeError (withProgress p1 st)
      end
    else
      match lookup km p with
      | Some v =>
          if truthy v then
            match v with
            | JObject o =>
                let o' := delProp kn o in
                let p1 := setProp km (JObject o') p in
                if (List.length (keys o') =? 0)%nat then finish (delProp km p1) else finish p1
            | JString s =>
                if isIndexOf 0 s kn then TypeError st else finish p
            | _ => finish (delProp km p)
            end
          else finish p
      | None => finish p
      end.

Definition resetProgress (confirm : value) (st : store) : outcome bool :=
  if negb (truthy confirm) then Return false st
  else Return true (emit (saveProgress (withProgress [] st))).

Definition importProgress (now : Z) (progressData : value) (st : store) : outcome bool :=
  if negb (isValidProgressData now progressData) then Return false st
  else Return true (emit (saveProgress (withProgress (spread progressData) st))).

Definition exportProgress (now : Z) (st : store) : value :=
  JObject [("data", JObject (spread (JObject (progress st))));
           ("exportedAt", JNumber (Int now));
           ("version", JString "1.0")].

(** [loadProgress], reading through [getItem]: the page installs
    [App.getItem] before any tracker exists. *)
Definition loadProgress (now : Z) (st : store) : store :=
  let (stored, ls) := App.getItem (storage st) in
  let st1 := mkStore (progress st) ls (emitted st) in
  match stored with
  | None => st1
  | Some Garbage => withProgress [] st1
  | Some (Json parsed) =>
      if isValidProgressData now parsed
      then withProgress (objectEntries parsed) st1
      else saveProgress (withProgress [] st1)
  end.

Definition init (now : Z) (st : store) : outcome unit :=
  validateProgress now (loadProgress now st).

(** *** The curriculum shape and the stores a page can be in *)

(** Every mission entry of a record is an object. *)
Definition shaped (p : props) : Prop :=
  Forall (fun kv => isObject (snd kv) = true) p.

(** How many modules mission [m] has. *)
Definition moduleCount (m : Z) : Z :=
  match modulesPerMission (intToString m) with
  | Some c => c
  | None => 0
  end.

Definition inBounds (m n : Z) : Prop :=
  1 <= m <= totalMissions /\ 1 <= n <= moduleCount m.

(** A call of a method that can change the store, with its arguments and
    the clock reading [Date.now()] it sees, or a write to the storage
    from outside the tracker. *)
Inductive call : Type :=
| Init (now : Z)
| LoadProgress (now : Z)
| ValidateProgress (now : Z)
| SaveProgress
| SetModuleCompletion (now : Z) (mission module completed : value)
| ResetProgress (confirm : value)
| ImportProgress (now : Z) (progressData : value)
| StorageWritten (ls : localStorage).

(** The store a call leaves, whether it returns or throws. *)
Definition run (c : call) (st : store) : store :=
  match c with
  | Init now => finalStore (init now st)
  | LoadProgress now => loadProgress now st
  | ValidateProgress now => finalStore (validateProgress now st)
  | SaveProgress => saveProgress st
  | SetModuleCompletion now mission module completed =>
      finalStore (setModuleCompletion now mission module completed st)
  | ResetProgress confirm => finalStore (resetProgress confirm st)
  | ImportProgress now progressData => finalStore (importProgress now progressData st)
  | StorageWritten ls => mkStore (progress st) ls (emitted st)
  end.

Inductive reachable : store -> Prop :=
| reachable_new (ls : localStorage) : reachable (constructor ls)
| reachable_run (c : call) (st : store) : reachable st -> reachable (run c st).

End Progress.

(** ** js/content.js: sanitizeHTML *)

Module Content.

(** The tree the browser builds from [div.innerHTML = html] and
    serializes back from [div.innerHTML]: elements with their local name,
    their attributes in document order, and their children. *)
#[warnings="-register-all"]
Inductive node : Type :=
| Text (data : string)
| Element (tag : string) (attributes : list (string * string)) (children : list node).

Definition attribute := (string * string)%type.

(** Does the selector ['script, object, embed, iframe'] match the element? *)
Definition isRemovedTag (tag : string) : bool :=
  existsb (String.eqb tag) ["script"; "object"; "embed"; "iframe"].

(** [scripts.forEach(script => script.remove())]: every matching
    descendant leaves the tree with its subtree. *)
Fixpoint removeScripts (n : node) : list node :=
  match n with
  | Text _ => [n]
  | Element tag attrs children =>
      if isRemovedTag tag then []
      else [Element tag attrs (flat_map removeScripts children)]
  end.

(** [el.removeAttribute(name)]. *)
Fixpoint removeAttribute (name : string) (attrs : list attribute) : list attribute :=
  match attrs with
  | [] => []
  | a :: rest => if String.eqb name (fst a) then rest else a :: removeAttribute name rest
  end.

(** [for (const attr of el.attributes)]: the iterator walks the live
    attribute list by index, [i] being the next index it reads; [fuel]
    bounds the number of reads. *)
Fixpoint attributeLoop (fuel : nat) (i : nat) (attrs : list attribute) : list attribute :=
  match fuel with
  | O => attrs
  | S fuel' =>
      match nth_error attrs i with
      | None => attrs
      | Some attr =>
          if String.prefix "on" (fst attr)
          then attributeLoop fuel' (S i) (removeAttribute (fst attr) attrs)
          else attributeLoop fuel' (S i) attrs
      end
  end.

(** The index grows by one at each read and the list never grows, so
    one more read than there are attributes ends the loop. *)
Definition removeHandlers (attrs : list attribute) : list attribute :=
  attributeLoop (S (List.length attrs)) 0 attrs.

(** What the loop amounts to on an attribute list: after a handler is
    removed, the attribute that followed it is never read. *)
Fixpoint skipNext (attrs : list attribute) : list attribute :=
  match attrs with
  | [] => []
  | a :: rest =>
      if String.prefix "on" (fst a)
      then match rest with
           | [] => []
           | b :: rest' => b :: skipNext rest'
           end
      else a :: skipNext rest
  end.

(** [elements.forEach(el => ...)] over [querySelectorAll('*')]. *)
Fixpoint cleanElement (n : node) : node :=
  match n with
  | Text _ => n
  | Element tag attrs children =>
      Element tag (removeHandlers attrs) (map cleanElement children)
  end.

(** [sanitizeHTML] on the parsed fragment: the children of [div] before
    and after. *)
Definition sanitizeHTML (fragment : list node) : list node :=
  map cleanElement (flat_map removeScripts fragment).

(** Every element of a fragment, the fragment's own included. *)
Fixpoint elementsOf (n : node) : list node :=
  match n with
  | Text _ => []
  | Element _ _ children => n :: flat_map elementsOf children
  end.

Definition hasHandler (n : node) : bool :=
  match n with
  | Text _ => false
  | Element _ attrs _ => existsb (fun a => String.prefix "on" (fst a)) attrs
  end.

Definition isRemovedElement (n : node) : bool :=
  match n with
  | Text _ => false
  | Element tag _ _ => isRemovedTag tag
  end.

(** What the sanitizer is to guarantee of its result. *)
Definition isClean (fragment : list node) : bool :=
  forallb (fun n => negb (isRemovedElement n) && negb (hasHandler n))
          (flat_map elementsOf fragment).

End Content.

(** ** js/router.js: navigateModule *)

Module Router.

(** [this.currentPage]. *)
Record router : Type := mkRouter { currentPage : string }.

Definition moduleRoute (mission module : Z) : string :=
  "module-" ++ intToString mission ++ "-" ++ intToString module.

(** The part of [showModule] that the route observes: once the page is
    rendered, [currentPage] names the module. *)
Definition showModule (mission module : Z) (r : router) : router :=
  mkRouter (moduleRoute mission module).

(** The module [navigateModule] goes to, if it goes anywhere. *)
Definition nextTarget (currentMission currentModule direction : Z) : option (Z * Z) :=
  let nextMission := currentMission in
  let nextModule := currentModule + direction in
  let moduleCount := if currentMission =? 4 then 4 else 3 in
  let '(nextMission, nextModule) :=
    if nextModule >? moduleCount then (nextMission + 1, 1)
    else if nextModule <? 1
         then let nextMission := nextMission - 1 in
              (nextMission, if nextMission =? 4 then 4 else 3)
         else (nextMission, nextModule) in
  if (nextMission <? 1) || (nextMission >? 5) then None
  else Some (nextMission, nextModule).

Definition navigateModule (currentMission currentModule direction : Z) (r : router)
    : router :=
  match nextTarget currentMission currentModule direction with
  | Some (mission, module) => showModule mission module r
  | None => r
  end.

End Router.

(** ** What the specification asks of records and payloads *)

Module Spec.

Import Progress.

(** The key, parsed as an integer, lies in [lo..hi]. *)
Definition keyIn (k : string) (lo hi : Z) : Prop :=
  exists z, parseIntString k = Int z /\ lo <= z <= hi.

(** A positive number, no greater than now and no earlier than the floor
    date. *)
Definition timestampOk (now : Z) (t : value) : Prop :=
  exists z, t = num z /\ 0 < z /\ z <= now /\ minimumDate <= z.

(** A candidate record violates the structure: it is not an object, a
    mission entry is not an object, a mission key is outside 1..5, a
    module key is outside 1..moduleCount of its mission, or a timestamp is
    not acceptable. *)
Inductive violation (now : Z) (data : value) : Prop :=
| not_a_record : isObject data = false -> violation now data
| bad_mission_key (o : props) (km : string) (v : value) :
    data = JObject o -> In (km, v) o -> ~ keyIn km 1 5 -> violation now data
| bad_mission_entry (o : props) (km : string) (v : value) :
    data = JObject o -> In (km, v) o -> isObject v = false -> violation now data
| bad_module_key (o mods : props) (km kn : string) (m : Z) (t : value) :
    data = JObject o -> In (km, JObject mods) o ->
    parseIntString km = Int m -> 1 <= m <= 5 ->
    In (kn, t) mods -> ~ keyIn kn 1 (moduleCount m) -> violation now data
| bad_timestamp (o mods : props) (km kn : string) (t : value) :
    data = JObject o -> In (km, JObject mods) o ->
    In (kn, t) mods -> ~ timestampOk now t -> violation now data.

(** A mission entry with no module entry. *)
Definition isEmptyMission (kv : string * value) : bool :=
  match snd kv with
  | JObject o => (List.length (keys o) =? 0)%nat
  | _ => false
  end.

(** The record invariants, with keys read the way the validator reads
    them: every key pair within the bounds, every timestamp valid at the
    clock reading [now], and no mission entry without a module entry. *)
Definition recordInvariant (now : Z) (p : props) : bool :=
  isValidProgressData now (JObject p) && negb (existsb isEmptyMission p).


(** The value a record holds for module [n] of mission [m]. *)
Definition entryAt (o : props) (m n : Z) : option value :=
  match lookup (intToString m) o with
  | Some (JObject mods) => lookup (intToString n) mods
  | _ => None
  end.



(** A module entry as the storage read filter writes it: a module
    number of [1..max] under its decimal key, holding a positive number
    that satisfies [P]. *)
Definition goodModule (P : Z -> Prop) (max : Z) (kv : string * value) : Prop :=
  exists n z,
    fst kv = intToString n /\ 1 <= n <= max /\ snd kv = num z /\ 0 < z /\ P z.

(** A mission entry as the filter writes it. *)
Definition goodMission (P : Z -> Prop) (kv : string * value) : Prop :=
  exists m mods,
    fst kv = intToString m /\ 1 <= m <= 5 /\ snd kv = JObject mods /\
    Forall (goodModule P (moduleCount m)) mods.

(** The timestamp is not in the future and is after the floor date. *)
Definition plausible (now z : Z) : Prop := z <= now /\ minimumDate < z.

End Spec.

(** ** js/progress.js: the derived views *)

Module ProgressViews.

Import Progress.

(** [for (let i = 1; i <= hi; i++) body(i)] where the body updates a
    local variable: [count] iterations starting at [i]. *)
Fixpoint forAcc {S : Type} (count : nat) (i : Z) (body : Z -> S -> S) (s : S) : S :=
  match count with
  | O => s
  | S count' => forAcc count' (i + 1) body (body i s)
  end.

Definition forAccUpTo {S : Type} (hi : option Z) (body : Z -> S -> S) (s : S) : S :=
  match hi with
  | Some h => forAcc (Z.to_nat h) 1 body s
  | None => s
  end.

(** [Object.values(modulesPerMission).reduce((sum, count) => sum + count, 0)]. *)
Definition getTotalModules : Z :=
  fold_left (fun sum kv => sum + snd kv) modulesPerMissionTable 0.

Definition getCompletedModules (st : store) : Z :=
  forAccUpTo (Some totalMissions)
    (fun mission completed =>
       let maxModules := modulesPerMission (intToString mission) in
       forAccUpTo maxModules
         (fun module completed =>
            if isModuleComplete st (num mission) (num module)
            then completed + 1 else completed)
         completed)
    0.

(** [Math.round((completed / total) * 100)] for a positive [total] that
    is a power of two, as the 16 modules of the curriculum are: the
    quotient and the product are then exact in doubles, and [Math.round]
    rounds halves up. *)
Definition roundedPercent (completed total : Z) : Z :=
  (200 * completed + total) / (2 * total).

Definition getOverallProgress (st : store) : Z :=
  let totalModules := getTotalModules in
  let completedModules := getCompletedModules st in
  if totalModules =? 0 then 0
  else roundedPercent completedModules totalModules.

(** [getProgress]: a shallow copy of the record. *)
Definition getProgress (st : store) : value := JObject (spread (JObject (progress st))).

(** [canAccessModule]. *)
Definition canAccessModule (mission module : value) : bool :=
  isValidMissionModule mission module.

End ProgressViews.

(** ** Sessions of a tracker driven by the page *)

Module Sessions.

Import Progress Spec.




(** The module object of a mission entry lists no key twice. *)
Definition uniqueModuleKeys (kv : string * value) : Prop :=
  forall mods, snd kv = JObject mods -> NoDup (keys mods).

(** The 16 slots of the curriculum, in curriculum order. *)
Definition slots : list (Z * Z) :=
  [(1, 1); (1, 2); (1, 3); (2, 1); (2, 2); (2, 3); (3, 1); (3, 2); (3, 3);
   (4, 1); (4, 2); (4, 3); (4, 4); (5, 1); (5, 2); (5, 3)].

Definition completeSlot (st : store) (slot : Z * Z) : Z :=
  if isModuleComplete st (num (fst slot)) (num (snd slot)) then 1 else 0.

(** How many of the listed slots are complete. *)
Fixpoint completedIn (st : store) (l : list (Z * Z)) : Z :=
  match l with
  | [] => 0
  | slot :: rest => completeSlot st slot + completedIn st rest
  end.

(** [f i + f (i + 1) + ...], [count] terms. *)
Fixpoint sumFrom (count : nat) (i : Z) (f : Z -> Z) : Z :=
  match count with
  | O => 0
  | S count' => f i + sumFrom count' (i + 1) f
  end.

End Sessions.

(** ** js/router.js: routes, buttons, the sidebar and the theme *)

Module RouterUI.

Import Router ProgressViews.

(** *** The delegated click handler on [data-route] elements *)

(** [\d]. *)
Definition isDecimalDigit (c : ascii) : bool :=
  match digitOf 10 c with Some _ => true | None => false end.

(** [\d*] at the head of [s], greedy: the digits and what follows. *)
Fixpoint takeDigits (s : string) : string * string :=
  match s with
  | String c rest =>
      if isDecimalDigit c
      then let (digits, after) := takeDigits rest in (String c digits, after)
      else (EmptyString, s)
  | EmptyString => (EmptyString, EmptyString)
  end.






(** *** The previous and next buttons *)

(** The [disabled] property of the two buttons, [None] for a button that
    is not in the document. *)
Record navButtons : Type := mkButtons {
  prevDisabled : option bool;
  nextDisabled : option bool
}.

Definition updateNavigationButtons (mission module : Z) (b : navButtons) : navButtons :=
  mkButtons
    (match prevDisabled b with
     | Some _ => Some ((mission =? 1) && (module =? 1))
     | None => None
     end)
    (match nextDisabled b with
     | Some _ => Some ((mission =? 5) && (module =? 3))
     | None => None
     end).

(** *** The mission list of the sidebar *)

(** The three elements of mission [i]: whether [mission-i-modules] has
    the class [expanded], the text of [mission-i-arrow], whether
    [mission-i-toggle] has the class [active]; [None] for an element
    that is not in the document. *)
Record missionElements : Type := mkMission {
  modulesExpanded : option bool;
  arrowText : option string;
  toggleActive : option bool
}.

Definition sidebar : Type := Z -> missionElements.

Definition setElements (i : Z) (e : missionElements) (d : sidebar) : sidebar :=
  fun j => if j =? i then e else d j.

Definition bytes (l : list nat) : string :=
  string_of_list_ascii (map ascii_of_nat l).

(** The arrow texts, byte for byte as the source file has them. *)
Definition collapsedArrow : string := bytes [226; 128; 154; 195; 177; 226; 136; 130]%nat.
Definition expandedArrow : string := bytes [226; 128; 154; 195; 177; 194; 186]%nat.

(** The body of the loop that closes the other missions. *)
Definition closeMission (i : Z) (d : sidebar) : sidebar :=
  let e := d i in
  setElements i
    (mkMission (option_map (fun _ => false) (modulesExpanded e))
               (option_map (fun _ => collapsedArrow) (arrowText e))
               (option_map (fun _ => false) (toggleActive e)))
    d.

Definition toggleMission (mission : Z) (d : sidebar) : sidebar :=
  match modulesExpanded (d mission), arrowText (d mission), toggleActive (d mission) with
  | Some expanded, Some _, Some _ =>
      if expanded
      then setElements mission
             (mkMission (Some false) (Some collapsedArrow) (Some false)) d
      else
        let d1 := forAcc 5 1
                    (fun i d => if negb (i =? mission) then closeMission i d else d) d in
        setElements mission
          (mkMission (Some true) (Some expandedArrow) (Some true)) d1
  | _, _, _ => d
  end.

Definition ensureMissionExpanded (mission : Z) (d : sidebar) : sidebar :=
  match modulesExpanded (d mission) with
  | Some false => toggleMission mission d
  | _ => d
  end.

(** Is the module list of mission [i] expanded? *)
Definition isExpanded (d : sidebar) (i : Z) : bool :=
  match modulesExpanded (d i) with
  | Some b => b
  | None => false
  end.

(** At most one of the five module lists is expanded. *)
Definition oneOpen (d : sidebar) : Prop :=
  forall i j, 1 <= i <= 5 -> 1 <= j <= 5 ->
    isExpanded d i = true -> isExpanded d j = true -> i = j.

(** What [closeMission] leaves of the elements of a mission. *)
Definition closed (e : missionElements) : missionElements :=
  mkMission (option_map (fun _ => false) (modulesExpanded e))
            (option_map (fun _ => collapsedArrow) (arrowText e))
            (option_map (fun _ => false) (toggleActive e)).

(** The three elements of mission [i] tell the same story. *)
Definition inStep (d : sidebar) (i : Z) : Prop :=
  exists b,
    d i = mkMission (Some b) (Some (if b then expandedArrow else collapsedArrow)) (Some b).

(** *** The theme *)

(** The [data-theme] attribute of [body], the [innerHTML] of
    [theme-text] ([None] when the element is not in the document), and
    what [localStorage] holds under [theme]. *)
Record themeState : Type := mkTheme {
  bodyTheme : option string;
  themeText : option string;
  savedTheme : option string
}.

Definition darkLabel : string :=
  bytes [239; 163; 191; 195; 188; 195; 165; 195; 180]%nat ++ " Dark Mode".
Definition lightLabel : string :=
  bytes [226; 128; 154; 195; 178; 195; 132; 195; 148; 226; 136; 143; 195; 168]%nat
  ++ " Light Mode".

Definition isLight (attr : option string) : bool :=
  match attr with
  | Some t => String.eqb t "light"
  | None => false
  end.

(** The storage is taken to accept the write. *)
Definition toggleTheme (s : themeState) : themeState :=
  if isLight (bodyTheme s)
  then mkTheme None (option_map (fun _ => darkLabel) (themeText s)) (Some "dark")
  else mkTheme (Some "light") (option_map (fun _ => lightLabel) (themeText s))
               (Some "light").

Definition loadTheme (s : themeState) : themeState :=
  if isLight (savedTheme s)
  then mkTheme (Some "light") (option_map (fun _ => lightLabel) (themeText s))
               (savedTheme s)
  else s.

End RouterUI.

(** ** js/content.js: loading module content *)

Module ContentLoader.

Import Content.

(** What [fetch] and [response.text()] come to: the request fails, or a
    response arrives with its [ok] flag and status, whose body is read
    ([None] when reading it fails). *)
Inductive fetched : Type :=
| NetworkError
| Response (ok : bool) (status : Z) (body : option string).

(** The network, asked for a URL. *)
Definition network : Type := string -> fetched.

(** [this.cache], a [Map] from keys to content. *)
Definition cache : Type := string -> option string.

Definition cacheSet (key content : string) (c : cache) : cache :=
  fun k => if String.eqb k key then Some content else c k.

Definition cacheKey (mission module : Z) : string :=
  "module-" ++ intToString mission ++ "-" ++ intToString module.

Definition contentUrl (mission module : Z) : string :=
  "/content/mission-" ++ intToString mission ++ "/module-" ++ intToString mission
  ++ "-" ++ intToString module ++ ".html".

Definition dq : string := String (ascii_of_nat 34) EmptyString.
Definition nl : string := String (ascii_of_nat 10) EmptyString.

Definition getPlaceholderContent (mission module : Z) : string :=
  nl
  ++ "            <div class=" ++ dq ++ "content-header" ++ dq ++ ">" ++ nl
  ++ "                <div class=" ++ dq ++ "page-subtitle" ++ dq ++ ">Module " ++ intToString mission ++ "." ++ intToString module ++ "</div>" ++ nl
  ++ "                <h1 class=" ++ dq ++ "page-title" ++ dq ++ ">Module Coming Soon</h1>" ++ nl
  ++ "                <p class=" ++ dq ++ "module-briefing" ++ dq ++ ">This module is currently being developed. Please check back later.</p>" ++ nl
  ++ "            </div>" ++ nl
  ++ "            <div class=" ++ dq ++ "content-body" ++ dq ++ ">" ++ nl
  ++ "                <div class=" ++ dq ++ "card" ++ dq ++ ">" ++ nl
  ++ "                    <h3 class=" ++ dq ++ "card-title" ++ dq ++ ">Module in Development</h3>" ++ nl
  ++ "                    <div class=" ++ dq ++ "card-content" ++ dq ++ ">" ++ nl
  ++ "                        <p>" ++ nl
  ++ "                            This module will be available soon. In the meantime, you can explore the other available modules " ++ nl
  ++ "                            or check out the resource library for additional learning materials." ++ nl
  ++ "                        </p>" ++ nl
  ++ "                    </div>" ++ nl
  ++ "                </div>" ++ nl
  ++ "            </div>" ++ nl
  ++ "        ".

(** [loadModuleContent], one call taken as a whole: the content it
    resolves to and the cache it leaves. *)
Definition loadModuleContent (net : network) (mission module : Z) (c : cache)
    : string * cache :=
  let key := cacheKey mission module in
  match c key with
  | Some content => (content, c)
  | None =>
      match net (contentUrl mission module) with
      | Response true _ (Some content) => (content, cacheSet key content c)
      | _ => (getPlaceholderContent mission module, c)
      end
  end.

(** The fetch of a module's content does not deliver. *)
Definition fails (r : fetched) : bool :=
  match r with
  | Response true _ (Some _) => false
  | _ => true
  end.

(** *** Fragments the attribute loop handles *)

Definition isHandler (a : attribute) : bool := String.prefix "on" (fst a).

(** Two event-handler attributes next to each other. *)
Fixpoint adjacentHandlers (attrs : list attribute) : bool :=
  match attrs with
  | a :: rest =>
      match rest with
      | b :: _ => (isHandler a && isHandler b) || adjacentHandlers rest
      | [] => false
      end
  | [] => false
  end.

(** No attribute name twice, as in every parsed element. *)
Fixpoint distinctNames (attrs : list attribute) : bool :=
  match attrs with
  | a :: rest =>
      negb (existsb (fun b => String.eqb (fst a) (fst b)) rest) && distinctNames rest
  | [] => true
  end.


End ContentLoader.

(** ** js/progress.js: the event system *)

Module Events.

(** A callback is a function object; the model names it by a number,
    two equal numbers being the same function.  Whether a call of it
    throws is given by [throws]; callbacks that subscribe or unsubscribe
    while they run are outside the model. *)
Definition callback : Type := nat.

(** [this.listeners], a [Map] from event names to arrays. *)
Definition listeners : Type := string -> option (list callback).

Definition setListeners (event : string) (cbs : list callback) (l : listeners)
    : listeners :=
  fun e => if String.eqb e event then Some cbs else l e.

(** [on]: after the first statement the event has an array. *)
Definition on (event : string) (cb : callback) (l : listeners) : listeners :=
  let l1 := match l event with
            | Some _ => l
            | None => setListeners event [] l
            end in
  match l1 event with
  | Some cbs => setListeners event (cbs ++ [cb]) l1
  | None => l1
  end.

(** [callbacks.indexOf(callback)], counting from [i]. *)
Fixpoint indexOfFrom (i : Z) (cb : callback) (cbs : list callback) : Z :=
  match cbs with
  | [] => -1
  | c :: rest => if Nat.eqb c cb then i else indexOfFrom (i + 1) cb rest
  end.

(** [callbacks.splice(index, 1)] for an index of the array. *)
Definition splice (index : Z) (cbs : list callback) : list callback :=
  (firstn (Z.to_nat index) cbs ++ skipn (S (Z.to_nat index)) cbs)%list.

Definition off (event : string) (cb : callback) (l : listeners) : listeners :=
  match l event with
  | Some cbs =>
      let index := indexOfFrom 0 cb cbs in
      if index >? -1 then setListeners event (splice index cbs) l else l
  | None => l
  end.

(** [emit]: the callbacks called, in order, and the number of errors
    caught and logged. *)
Definition emit (throws : callback -> bool) (event : string) (l : listeners)
    : list callback * nat :=
  match l event with
  | Some cbs =>
      fold_left
        (fun log cb =>
           if throws cb then ((fst log ++ [cb])%list, S (snd log))
           else ((fst log ++ [cb])%list, snd log))
        cbs ([], O)
  | None => ([], O)
  end.

End Events.

(** * Properties *)

(** ** Reading back a printed integer *)

Module JSFacts.

Import NilEmpty.

Lemma scanDigits_step (c : ascii) (s : string) (acc k : N) :
  digitOf 10 c = Some k ->
  scanDigits 10 (String c s) acc = scanDigits 10 s (10 * acc + k)%N.
Proof. intro H. cbn [scanDigits]. rewrite H. reflexivity. Qed.

Ltac digit_value :=
  match goal with
  | |- context [(N_of_ascii ?c - 48)%N] =>
      let v := eval compute in (N_of_ascii c - 48)%N in
      change (N_of_ascii c - 48)%N with v
  end.

Lemma scanDigits_acc (d : Decimal.uint) (p : positive) :
  scanDigits 10 (string_of_uint d) (Npos p) = Npos (Pos.of_uint_acc d p).
Proof.
  revert p; induction d; intro p; cbn [string_of_uint Pos.of_uint_acc];
    [reflexivity | ..];
    (erewrite scanDigits_step by reflexivity); rewrite <- IHd; f_equal;
    digit_value; lia.
Qed.

Lemma scanDigits_uint (d : Decimal.uint) :
  scanDigits 10 (string_of_uint d) 0 = Pos.of_uint d.
Proof.
  induction d; cbn [string_of_uint Pos.of_uint]; [reflexivity | ..];
    (erewrite scanDigits_step by reflexivity);
    [exact IHd | rewrite <- scanDigits_acc; f_equal ..].
Qed.

Lemma stripHexPrefix_uint (d : Decimal.uint) :
  stripHexPrefix (string_of_uint d) = None.
Proof. destruct d; try reflexivity; destruct d; reflexivity. Qed.

Lemma startsWithDigit_uint (d : Decimal.uint) :
  d <> Decimal.Nil -> startsWithDigit 10 (string_of_uint d) = true.
Proof. destruct d; [congruence | reflexivity ..]. Qed.

Lemma readUnsigned_uint (negative : bool) (d : Decimal.uint) :
  d <> Decimal.Nil ->
  readUnsigned negative (string_of_uint d) =
  Int (if negative then - Z.of_N (Pos.of_uint d) else Z.of_N (Pos.of_uint d)).
Proof.
  intro Hd. unfold readUnsigned, readDigits.
  rewrite stripHexPrefix_uint, startsWithDigit_uint, scanDigits_uint by exact Hd.
  reflexivity.
Qed.

Lemma parseIntString_uint (d : Decimal.uint) :
  d <> Decimal.Nil ->
  parseIntString (string_of_uint d) = readUnsigned false (string_of_uint d).
Proof. destruct d; [congruence | reflexivity ..]. Qed.

Lemma nilzero_uint (d : Decimal.uint) :
  d <> Decimal.Nil -> NilZero.string_of_uint d = string_of_uint d.
Proof. destruct d; [congruence | reflexivity ..]. Qed.

Lemma parseIntString_minus (s : string) :
  parseIntString (String "-" s) = readUnsigned true s.
Proof. reflexivity. Qed.

(** [parseInt] reads back every integer that [ToString] prints. *)
Lemma parseIntString_intToString (z : Z) :
  parseIntString (intToString z) = Int z.
Proof.
  destruct z as [| p | p]; [reflexivity | |];
    unfold intToString; cbn [Z.to_int NilZero.string_of_int];
    pose proof (Unsigned.to_uint_nonnil p) as Hd;
    rewrite nilzero_uint by exact Hd.
  - rewrite parseIntString_uint, readUnsigned_uint, Unsigned.of_to by exact Hd.
    reflexivity.
  - rewrite parseIntString_minus, readUnsigned_uint, Unsigned.of_to by exact Hd.
    reflexivity.
Qed.

Example parseInt_prefix : parseIntString "12abc" = Int 12.
Proof. reflexivity. Qed.

Example parseInt_hex : parseIntString "0x1F" = Int 31.
Proof. reflexivity. Qed.

Example parseInt_space_sign : parseIntString "  -7" = Int (-7).
Proof. reflexivity. Qed.

Example parseInt_no_digit : parseIntString "data" = NaN.
Proof. reflexivity. Qed.

Lemma parseInt_number (z : Z) : parseInt (JNumber (Int z)) = Int z.
Proof. apply parseIntString_intToString. Qed.

(** Printing is injective: distinct integers are distinct keys. *)
Lemma intToString_inj (a b : Z) : intToString a = intToString b -> a = b.
Proof.
  intro H. apply (f_equal parseIntString) in H.
  rewrite !parseIntString_intToString in H. congruence.
Qed.

End JSFacts.

(** ** Own properties *)

Module PropsFacts.

Lemma lookup_setProp_eq (k : string) (v : value) (o : props) :
  lookup k (setProp k v o) = Some v.
Proof.
  induction o as [| [k' v'] o IH]; cbn [setProp lookup].
  - rewrite String.eqb_refl. reflexivity.
  - destruct (String.eqb k k') eqn:E; cbn [lookup].
    + rewrite String.eqb_refl. reflexivity.
    + rewrite E. exact IH.
Qed.

Lemma lookup_setProp_neq (k k' : string) (v : value) (o : props) :
  k <> k' -> lookup k (setProp k' v o) = lookup k o.
Proof.
  intro Hne. induction o as [| [k2 v2] o IH]; cbn [setProp lookup].
  - apply String.eqb_neq in Hne. rewrite Hne. reflexivity.
  - destruct (String.eqb k' k2) eqn:E; cbn [lookup].
    + apply String.eqb_eq in E. subst k2.
      apply String.eqb_neq in Hne. rewrite Hne. reflexivity.
    + rewrite IH. reflexivity.
Qed.

Lemma lookup_delProp_eq (k : string) (o : props) :
  lookup k (delProp k o) = None.
Proof.
  unfold delProp. induction o as [| [k' v'] o IH]; cbn [filter lookup fst];
    [reflexivity |].
  destruct (String.eqb k k') eqn:E; cbn [negb lookup]; [exact IH |].
  rewrite E. exact IH.
Qed.

Lemma lookup_delProp_neq (k k' : string) (o : props) :
  k <> k' -> lookup k (delProp k' o) = lookup k o.
Proof.
  intro Hne. unfold delProp.
  induction o as [| [k2 v2] o IH]; cbn [filter lookup fst]; [reflexivity |].
  destruct (String.eqb k' k2) eqn:E; cbn [negb lookup].
  - apply String.eqb_eq in E. subst k2.
    apply String.eqb_neq in Hne. rewrite Hne. exact IH.
  - rewrite IH. reflexivity.
Qed.

Lemma lookup_In (k : string) (v : value) (o : props) :
  lookup k o = Some v -> In (k, v) o.
Proof.
  induction o as [| [k' v'] o IH]; cbn [lookup]; [discriminate |].
  destruct (String.eqb k k') eqn:E.
  - apply String.eqb_eq in E. intros [= ->]. subst. left. reflexivity.
  - intro H. right. exact (IH H).
Qed.

Lemma Forall_setProp (P : string * value -> Prop) (k : string) (v : value) (o : props) :
  P (k, v) -> Forall P o -> Forall P (setProp k v o).
Proof.
  intros Hv Ho. induction Ho as [| [k' v'] o Hx Ho IH]; cbn [setProp].
  - constructor; [exact Hv | constructor].
  - destruct (String.eqb k k'); constructor; assumption.
Qed.

Lemma Forall_delProp (P : string * value -> Prop) (k : string) (o : props) :
  Forall P o -> Forall P (delProp k o).
Proof.
  intro Ho. unfold delProp. apply Forall_forall. intros x Hx.
  apply filter_In in Hx as [Hx _].
  rewrite Forall_forall in Ho. exact (Ho x Hx).
Qed.

End PropsFacts.

(** ** Bounds checks *)

Module ProgressFacts.

Import Progress JSFacts.

Lemma modulesPerMission_key (m : Z) :
  1 <= m <= 5 ->
  modulesPerMission (intToString m) = Some (if m =? 4 then 4 else 3).
Proof.
  intro H.
  assert (m = 1 \/ m = 2 \/ m = 3 \/ m = 4 \/ m = 5) as Hm by lia.
  destruct Hm as [-> | [-> | [-> | [-> | ->]]]]; reflexivity.
Qed.

Lemma moduleCount_eq (m : Z) :
  1 <= m <= 5 -> moduleCount m = if m =? 4 then 4 else 3.
Proof. intro H. unfold moduleCount. rewrite modulesPerMission_key by exact H. reflexivity. Qed.

Lemma moduleCount_range (m : Z) : 1 <= m <= 5 -> 3 <= moduleCount m <= 4.
Proof. intro H. rewrite moduleCount_eq by exact H. destruct (m =? 4); lia. Qed.

Lemma inBounds_intro (m n : Z) :
  1 <= m <= 5 -> 1 <= n <= (if m =? 4 then 4 else 3) -> inBounds m n.
Proof.
  intros Hm Hn. unfold inBounds, totalMissions.
  rewrite moduleCount_eq by exact Hm. split; assumption.
Qed.

Lemma inBounds_cases (m n : Z) :
  inBounds m n ->
  In (m, n) [(1, 1); (1, 2); (1, 3); (2, 1); (2, 2); (2, 3); (3, 1); (3, 2); (3, 3);
             (4, 1); (4, 2); (4, 3); (4, 4); (5, 1); (5, 2); (5, 3)].
Proof.
  intros [Hm Hn]. unfold totalMissions in Hm.
  rewrite moduleCount_eq in Hn by exact Hm.
  assert (m = 1 \/ m = 2 \/ m = 3 \/ m = 4 \/ m = 5) as Hcases by lia.
  destruct Hcases as [-> | [-> | [-> | [-> | ->]]]]; cbn in Hn;
    assert (n = 1 \/ n = 2 \/ n = 3 \/ n = 4) as Hn' by lia;
    destruct Hn' as [-> | [-> | [-> | ->]]]; cbn; try lia; tauto.
Qed.

Lemma isValidMission_num (m : Z) :
  isValidMission (num m) = (1 <=? m) && (m <=? 5).
Proof. unfold isValidMission, num. rewrite parseInt_number. reflexivity. Qed.

(** On Number arguments the guard of the store is the bounds check of
    the curriculum. *)
Lemma isValidMissionModule_num (m n : Z) :
  isValidMissionModule (num m) (num n) = true <-> inBounds m n.
Proof.
  unfold isValidMissionModule, inBounds, totalMissions.
  rewrite isValidMission_num.
  destruct ((1 <=? m) && (m <=? 5)) eqn:Hm; cbn [negb].
  - apply andb_true_iff in Hm as [H1 H5].
    apply Z.leb_le in H1, H5.
    unfold num. rewrite !parseInt_number. cbn [ToString].
    unfold moduleCount. rewrite modulesPerMission_key by lia.
    cbn [geZ leMax leZ]. rewrite andb_true_iff, !Z.leb_le. lia.
  - split; [discriminate |].
    intros [H _]. apply andb_false_iff in Hm as [Hm | Hm];
      apply Z.leb_gt in Hm; lia.
Qed.


(** The guard on arbitrary arguments: it passes exactly when both parse
    to integers within the bounds. *)
Lemma isValidMissionModule_parse (mission module : value) :
  isValidMissionModule mission module = true <->
  exists m n, parseInt mission = Int m /\ parseInt module = Int n /\ inBounds m n.
Proof.
  unfold isValidMissionModule, isValidMission, inBounds, totalMissions.
  destruct (parseInt mission) as [| m]; cbn [geZ leZ andb negb].
  - split; [discriminate | intros (m & n & H & _); discriminate].
  - destruct ((1 <=? m) && (m <=? 5)) eqn:Hm; cbn [negb].
    + apply andb_true_iff in Hm as [H1 H5]. apply Z.leb_le in H1, H5.
      cbn [ToString]. unfold moduleCount.
      destruct (parseInt module) as [| n]; cbn [geZ].
      * split; [discriminate | intros (m' & n & _ & H & _); discriminate].
      * rewrite modulesPerMission_key by lia. cbn [leMax leZ].
        rewrite andb_true_iff, !Z.leb_le. split.
        -- intro H. exists m, n. rewrite modulesPerMission_key by lia.
           repeat split; try reflexivity; lia.
        -- intros (m' & n' & [= <-] & [= <-] & Hb).
           rewrite modulesPerMission_key in Hb by lia. lia.
    + split; [discriminate |].
      intros (m' & n & [= <-] & _ & H & _).
      apply andb_false_iff in Hm as [Hm | Hm]; apply Z.leb_gt in Hm; lia.
Qed.

(** Whatever the arguments are, when they do not parse to a pair within
    the bounds the store fails closed. *)
Lemma invalid_arguments_fail_closed
    (now : Z) (mission module completed : value) (st : store) :
  (forall m n, parseInt mission = Int m -> parseInt module = Int n -> ~ inBounds m n) ->
  setModuleCompletion now mission module completed st = Return false st /\
  isModuleComplete st mission module = false.
Proof.
  intro H. unfold setModuleCompletion, isModuleComplete.
  destruct (isValidMissionModule mission module) eqn:E; [| split; reflexivity].
  apply isValidMissionModule_parse in E as (m & n & Hm & Hn & Hb).
  exfalso. exact (H m n Hm Hn Hb).
Qed.



End ProgressFacts.

(** ** The shape of the record in every store a page can reach *)

Module ShapeFacts.

Import Progress PropsFacts.

Lemma shaped_lookup (k : string) (v : value) (p : props) :
  shaped p -> lookup k p = Some v -> exists o, v = JObject o.
Proof.
  intros Hp Hk. apply lookup_In in Hk.
  unfold shaped in Hp. rewrite Forall_forall in Hp.
  specialize (Hp _ Hk). cbn in Hp.
  destruct v; try discriminate. eexists; reflexivity.
Qed.

Lemma shaped_setProp (k : string) (o p : props) :
  shaped p -> shaped (setProp k (JObject o) p).
Proof. intro H. apply Forall_setProp; [reflexivity | exact H]. Qed.

Lemma shaped_delProp (k : string) (p : props) :
  shaped p -> shaped (delProp k p).
Proof. apply Forall_delProp. Qed.

Lemma shaped_writeBack (k : string) (o p : props) :
  shaped p -> shaped (writeBack k o p).
Proof.
  intro H. unfold writeBack. destruct (lookup k p); [| exact H].
  apply shaped_setProp. exact H.
Qed.

Lemma validMissionEntries_shaped (now : Z) (l : props) :
  validMissionEntries now l = true -> shaped l.
Proof.
  induction l as [| [k v] l IH]; cbn [validMissionEntries]; intro H.
  - constructor.
  - destruct (isFalsyNumber _ || _ || _); [discriminate |].
    destruct (negb (truthy v) || negb (isObject v)) eqn:Ev; [discriminate |].
    destruct (negb (validModuleEntries _ _ _)); [discriminate |].
    apply orb_false_iff in Ev as [_ Ev]. apply negb_false_iff in Ev.
    constructor; [exact Ev | exact (IH H)].
Qed.

Lemma isValidProgressData_object (now : Z) (data : value) :
  isValidProgressData now data = true ->
  exists o, data = JObject o /\ validMissionEntries now o = true.
Proof.
  unfold isValidProgressData.
  destruct data; cbn [isObject negb]; rewrite ?orb_true_r; try discriminate.
  cbn. intro H. eexists; split; [reflexivity | exact H].
Qed.

Lemma cleanMissions_shaped (now : Z) (entries p : props) (h : bool) :
  shaped p -> shaped (fst (cleanMissions now entries p h)).
Proof.
  revert p h. induction entries as [| [k v] entries IH]; intros p h Hp;
    cbn [cleanMissions]; [exact Hp |].
  destruct (isFalsyNumber _ || _ || _).
  - apply IH, shaped_delProp, Hp.
  - destruct v as [| | b | n | s | o]; try (apply IH, shaped_delProp, Hp);
      try exact Hp.
    + destruct s; [apply IH, shaped_delProp, Hp | exact Hp].
    + destruct (cleanModules _ _ _ _ _) as [o' changed].
      destruct (List.length (keys o') =? 0)%nat; apply IH.
      * apply shaped_delProp, shaped_writeBack, Hp.
      * apply shaped_writeBack, Hp.
Qed.

Lemma validateProgress_shaped (now : Z) (st : store) :
  shaped (progress st) -> shaped (progress (finalStore (validateProgress now st))).
Proof.
  intro H. unfold validateProgress.
  pose proof (cleanMissions_shaped now (progress st) (progress st) false H) as Hc.
  destruct (cleanMissions _ _ _ _) as [p [[|] |]]; exact Hc.
Qed.

Lemma loadProgress_shaped (now : Z) (st : store) :
  shaped (progress st) -> shaped (progress (loadProgress now st)).
Proof.
  intro H. unfold loadProgress.
  destruct (App.getItem (storage st)) as [[[| parsed] |] ls]; cbn;
    try exact H; try constructor.
  destruct (isValidProgressData now parsed) eqn:E; cbn; [| constructor].
  apply isValidProgressData_object in E as (o & -> & E).
  exact (validMissionEntries_shaped _ _ E).
Qed.

Lemma setModuleCompletion_shaped (now : Z) (mission module completed : value)
    (st : store) :
  shaped (progress st) ->
  shaped (progress (finalStore (setModuleCompletion now mission module completed st))).
Proof.
  intro H. unfold setModuleCompletion.
  destruct (negb (isValidMissionModule mission module)); [exact H |].
  cbv zeta. destruct (truthy completed).
  - set (p1 := match lookup (ToString mission) (progress st) with
               | Some v => if truthy v then progress st
                           else setProp (ToString mission) (JObject []) (progress st)
               | None => setProp (ToString mission) (JObject []) (progress st)
               end).
    assert (shaped p1) as H1.
    { subst p1. destruct (lookup _ _) as [v |];
        [destruct (truthy v) |]; try exact H; apply shaped_setProp, H. }
    destruct (lookup (ToString mission) p1) as [[| | | | | o] |]; cbn; try exact H1.
    apply shaped_setProp, H1.
  - destruct (lookup (ToString mission) (progress st)) as [v |] eqn:E; cbn;
      [| exact H].
    destruct (truthy v); cbn; [| exact H].
    destruct v as [| | b | n | s | o]; cbn; try exact H;
      try (apply shaped_delProp, H).
    + destruct (isIndexOf 0 s (ToString module)); cbn; exact H.
    + destruct (List.length _ =? 0)%nat; cbn.
      * apply shaped_delProp, shaped_setProp, H.
      * apply shaped_setProp, H.
Qed.

Lemma run_shaped (c : call) (st : store) :
  shaped (progress st) -> shaped (progress (run c st)).
Proof.
  intro H. destruct c; cbn [run].
  - apply validateProgress_shaped, loadProgress_shaped, H.
  - apply loadProgress_shaped, H.
  - apply validateProgress_shaped, H.
  - exact H.
  - apply setModuleCompletion_shaped, H.
  - unfold resetProgress. destruct (negb (truthy confirm)); cbn;
      [exact H | constructor].
  - unfold importProgress.
    destruct (isValidProgressData now progressData) eqn:E; cbn; [| exact H].
    apply isValidProgressData_object in E as (o & -> & E).
    exact (validMissionEntries_shaped _ _ E).
  - exact H.
Qed.

(** In every store a page can reach, each mission entry is an object. *)
Lemma reachable_shaped (st : store) : reachable st -> shaped (progress st).
Proof.
  induction 1 as [ls | c st _ IH]; [constructor | exact (run_shaped c st IH)].
Qed.

End ShapeFacts.

(** ** Completion of modules and missions *)

Module CompletionFacts.

Import Progress PropsFacts JSFacts ProgressFacts ShapeFacts.

Lemma isValidMissionModule_in (m n : Z) :
  inBounds m n -> isValidMissionModule (num m) (num n) = true.
Proof. apply isValidMissionModule_num. Qed.

Lemma isModuleComplete_in (st : store) (m n : Z) :
  inBounds m n ->
  isModuleComplete st (num m) (num n) =
  match lookup (intToString m) (progress st) with
  | Some v => if truthy v then truthy (getProp v (intToString n)) else false
  | None => false
  end.
Proof.
  intro H. unfold isModuleComplete.
  rewrite isValidMissionModule_in by exact H. reflexivity.
Qed.

Lemma truthy_timestamp (now : Z) : 0 < now -> truthy (num now) = true.
Proof.
  intro H. unfold num. cbn [truthy]. apply negb_true_iff. apply Z.eqb_neq. lia.
Qed.

(** What a successful [setModuleCompletion(m, n, true)] leaves. *)
Lemma setModuleCompletion_true (st : store) (now m n : Z) :
  shaped (progress st) -> inBounds m n ->
  exists o,
    (lookup (intToString m) (progress st) = Some (JObject o) \/
     lookup (intToString m) (progress st) = None /\ o = []) /\
    setModuleCompletion now (num m) (num n) (JBool true) st =
    Return true
      (emit (saveProgress
         (withProgress
            (setProp (intToString m) (JObject (setProp (intToString n) (num now) o))
               (match lookup (intToString m) (progress st) with
                | Some _ => progress st
                | None => setProp (intToString m) (JObject []) (progress st)
                end)) st))).
Proof.
  intros Hs Hb. unfold setModuleCompletion.
  rewrite isValidMissionModule_in by exact Hb.
  cbn [negb truthy ToString num]. cbv zeta.
  destruct (lookup (intToString m) (progress st)) as [v |] eqn:E.
  - destruct (shaped_lookup _ _ _ Hs E) as [o ->].
    exists o. cbn [truthy]. rewrite E. split; [left; reflexivity | reflexivity].
  - exists []. rewrite lookup_setProp_eq. split; [right; split; reflexivity | reflexivity].
Qed.

(** After a successful [setModuleCompletion(m, n, true)] the slot is
    complete and the other slots of the mission are as they were. *)
Lemma complete_after_set (st : store) (now m n : Z) :
  shaped (progress st) -> inBounds m n -> 0 < now ->
  exists st1,
    setModuleCompletion now (num m) (num n) (JBool true) st = Return true st1 /\
    isModuleComplete st1 (num m) (num n) = true /\
    forall n', inBounds m n' -> n' <> n ->
      isModuleComplete st1 (num m) (num n') = isModuleComplete st (num m) (num n').
Proof.
  intros Hs Hb Hnow.
  destruct (setModuleCompletion_true st now m n Hs Hb) as (o & Ho & ->).
  eexists; split; [reflexivity |]. split.
  - rewrite isModuleComplete_in by exact Hb.
    cbn [progress emit saveProgress withProgress].
    rewrite lookup_setProp_eq. cbn [truthy getProp].
    rewrite lookup_setProp_eq. apply truthy_timestamp, Hnow.
  - intros n' Hb' Hne. rewrite !isModuleComplete_in by exact Hb'.
    cbn [progress emit saveProgress withProgress].
    rewrite lookup_setProp_eq. cbn [truthy getProp].
    rewrite lookup_setProp_neq
      by (intro Heq; apply intToString_inj in Heq; contradiction).
    destruct Ho as [-> | [-> ->]]; reflexivity.
Qed.

(** After a successful [setModuleCompletion(m, n, false)] the slot is
    incomplete. *)
Lemma incomplete_after_unset (st : store) (now m n : Z) :
  shaped (progress st) -> inBounds m n ->
  exists st2,
    setModuleCompletion now (num m) (num n) (JBool false) st = Return true st2 /\
    isModuleComplete st2 (num m) (num n) = false.
Proof.
  intros Hs Hb. unfold setModuleCompletion.
  rewrite isValidMissionModule_in by exact Hb.
  cbn [negb truthy ToString num]. cbv zeta.
  destruct (lookup (intToString m) (progress st)) as [v |] eqn:E.
  - destruct (shaped_lookup _ _ _ Hs E) as [o ->]. cbn [truthy].
    destruct (List.length _ =? 0)%nat; (eexists; split; [reflexivity |]);
      rewrite isModuleComplete_in by exact Hb;
      cbn [progress emit saveProgress withProgress].
    + rewrite lookup_delProp_eq. reflexivity.
    + rewrite lookup_setProp_eq. cbn [truthy getProp].
      rewrite lookup_delProp_eq. reflexivity.
  - eexists; split; [reflexivity |].
    rewrite isModuleComplete_in by exact Hb.
    cbn [progress emit saveProgress withProgress]. rewrite E. reflexivity.
Qed.

(** C7. In every store a page can reach, for every mission m in 1..5 and
    module n in 1..moduleCount m: [setModuleCompletion(m, n, true)]
    returns [true] and [isModuleComplete(m, n)] is then [true] (the clock
    reading stored being a positive number of milliseconds), and
    [setModuleCompletion(m, n, false)] returns [true] and
    [isModuleComplete(m, n)] is then [false]. *)
Theorem set_completion_then_query (st : store) (now m n : Z) :
  reachable st -> inBounds m n -> 0 < now ->
  (exists st1,
      setModuleCompletion now (num m) (num n) (JBool true) st = Return true st1 /\
      isModuleComplete st1 (num m) (num n) = true) /\
  (exists st2,
      setModuleCompletion now (num m) (num n) (JBool false) st = Return true st2 /\
      isModuleComplete st2 (num m) (num n) = false).
Proof.
  intros Hr Hb Hnow. apply reachable_shaped in Hr. split.
  - destruct (complete_after_set st now m n Hr Hb Hnow) as (st1 & H1 & H2 & _).
    exists st1. split; assumption.
  - exact (incomplete_after_unset st now m n Hr Hb).
Qed.

Lemma set_completion_then_query_witness :
  reachable (constructor None) /\ inBounds 4 4 /\ 0 < 1700000000000 /\
  (exists st1,
      setModuleCompletion 1700000000000 (num 4) (num 4) (JBool true) (constructor None)
        = Return true st1 /\
      isModuleComplete st1 (num 4) (num 4) = true) /\
  (exists st2,
      setModuleCompletion 1700000000000 (num 4) (num 4) (JBool false) (constructor None)
        = Return true st2 /\
      isModuleComplete st2 (num 4) (num 4) = false).
Proof.
  assert (inBounds 4 4) as Hb by (apply inBounds_intro; cbn; lia).
  assert (0 < 1700000000000) as Hnow by lia.
  split; [constructor | split; [exact Hb | split; [exact Hnow |]]].
  exact (set_completion_then_query (constructor None) 1700000000000 4 4
           (reachable_new None) Hb Hnow).
Defined.


(** *** Loops over the curriculum *)

Lemma forFrom_None {A : Type} (count : nat) (i : Z) (body : Z -> option A) :
  forFrom count i body = None <->
  forall j, i <= j < i + Z.of_nat count -> body j = None.
Proof.
  revert i. induction count as [| count IH]; intro i; cbn [forFrom].
  - split; [intros _ j Hj; lia | reflexivity].
  - destruct (body i) eqn:E.
    + split; [discriminate |]. intro H. rewrite H in E by lia. discriminate.
    + rewrite IH. split; intros H j Hj.
      * destruct (Z.eq_dec j i) as [-> | Hne]; [exact E | apply H; lia].
      * apply H; lia.
Qed.

Lemma forFrom_Some {A : Type} (count : nat) (i : Z) (body : Z -> option A) (r : A) :
  forFrom count i body = Some r ->
  exists j, i <= j < i + Z.of_nat count /\ body j = Some r.
Proof.
  revert i. induction count as [| count IH]; intro i; cbn [forFrom];
    [discriminate |].
  destruct (body i) eqn:E.
  - intros [= ->]. exists i. split; [lia | exact E].
  - intro H. destruct (IH _ H) as (j & Hj & Hb). exists j. split; [lia | exact Hb].
Qed.

Lemma isMissionComplete_all (st : store) (m : Z) :
  1 <= m <= 5 ->
  (isMissionComplete st (num m) = true <->
   forall n, 1 <= n <= moduleCount m -> isModuleComplete st (num m) (num n) = true).
Proof.
  intro Hm. unfold isMissionComplete.
  rewrite isValidMission_num.
  replace ((1 <=? m) && (m <=? 5)) with true
    by (symmetry; apply andb_true_iff; split; apply Z.leb_le; lia).
  cbn [negb ToString num]. cbv zeta.
  pose proof (moduleCount_range m Hm) as Hc.
  unfold moduleCount in *.
  destruct (modulesPerMission (intToString m)) as [c |]; [| lia].
  cbn [forUpTo]. unfold num.
  match goal with |- context [forFrom ?k ?i ?b] => destruct (forFrom k i b) as [r |] eqn:E end.
  - apply forFrom_Some in E as (j & Hj & Hbody).
    destruct (isModuleComplete st (JNumber (Int m)) (JNumber (Int j))) eqn:Ej;
      cbn in Hbody; [discriminate |].
    injection Hbody as <-. split; [discriminate |].
    intro H. rewrite H in Ej by lia. discriminate.
  - split; [intros _ | reflexivity]. intros n Hn.
    rewrite forFrom_None in E. specialize (E n ltac:(lia)).
    destruct (isModuleComplete st (JNumber (Int m)) (JNumber (Int n)));
      [reflexivity | discriminate].
Qed.

(** C8. For every mission m in 1..5, [isMissionComplete(m)] is [true]
    exactly when every module 1..moduleCount m of the mission is complete.
    In particular, in a store a page can reach where modules 1, 2 and 3
    of mission 4 are complete and module 4 is not,
    [isMissionComplete(4)] is [false], and after
    [setModuleCompletion(4, 4, true)] it is [true]. *)
Theorem mission_complete_iff_all_modules (st : store) (m : Z) :
  1 <= m <= 5 ->
  (isMissionComplete st (num m) = true <->
   forall n, 1 <= n <= moduleCount m -> isModuleComplete st (num m) (num n) = true) /\
  (forall now, reachable st -> 0 < now ->
     isModuleComplete st (num 4) (num 1) = true ->
     isModuleComplete st (num 4) (num 2) = true ->
     isModuleComplete st (num 4) (num 3) = true ->
     isModuleComplete st (num 4) (num 4) = false ->
     isMissionComplete st (num 4) = false /\
     exists st',
       setModuleCompletion now (num 4) (num 4) (JBool true) st = Return true st' /\
       isMissionComplete st' (num 4) = true).
Proof.
  intro Hm. split; [exact (isMissionComplete_all st m Hm) |].
  intros now Hr Hnow H1 H2 H3 H4.
  assert (1 <= 4 <= 5) as H45 by lia.
  assert (moduleCount 4 = 4) as Hc by (rewrite moduleCount_eq by lia; reflexivity).
  split.
  - destruct (isMissionComplete st (num 4)) eqn:E; [| reflexivity].
    apply (isMissionComplete_all st 4 H45) with (n := 4) in E; [| lia].
    congruence.
  - assert (forall n, 1 <= n <= 4 -> inBounds 4 n) as Hb
      by (intros n Hn; apply inBounds_intro; cbn; lia).
    destruct (complete_after_set st now 4 4 (reachable_shaped _ Hr) (Hb 4 ltac:(lia)) Hnow)
      as (st' & Hset & Hsame & Hother).
    exists st'. split; [exact Hset |].
    apply (isMissionComplete_all st' 4 H45). rewrite Hc. intros n Hn.
    destruct (Z.eq_dec n 4) as [-> | Hne]; [exact Hsame |].
    rewrite Hother by (try apply Hb; lia).
    assert (n = 1 \/ n = 2 \/ n = 3) as [-> | [-> | ->]] by lia; assumption.
Qed.

Lemma mission_complete_iff_all_modules_witness :
  let t := 1700000000000 in
  let st0 :=
    run (SetModuleCompletion t (num 4) (num 3) (JBool true))
      (run (SetModuleCompletion t (num 4) (num 2) (JBool true))
         (run (SetModuleCompletion t (num 4) (num 1) (JBool true)) (constructor None))) in
  1 <= 4 <= 5 /\
  isMissionComplete st0 (num 4) = false /\
  exists st',
    setModuleCompletion t (num 4) (num 4) (JBool true) st0 = Return true st' /\
    isMissionComplete st' (num 4) = true.
Proof.
  intros t st0.
  assert (1 <= 4 <= 5) as H by lia.
  split; [exact H |].
  destruct (mission_complete_iff_all_modules st0 4 H) as [_ Hscenario].
  apply (Hscenario t).
  - repeat apply reachable_run. apply reachable_new.
  - subst t. lia.
  - vm_compute. reflexivity.
  - vm_compute. reflexivity.
  - vm_compute. reflexivity.
  - vm_compute. reflexivity.
Defined.

(** The body of the inner loop of [getNextRecommendedModule]. *)
Lemma next_inner (st : store) (m : Z) :
  1 <= m <= 5 ->
  let inner := forUpTo (modulesPerMission (intToString m))
                 (fun module =>
                    if negb (isModuleComplete st (JNumber (Int m)) (JNumber (Int module)))
                    then Some (m, module) else None) in
  (inner = None <->
   forall n, 1 <= n <= moduleCount m -> isModuleComplete st (num m) (num n) = true) /\
  (forall r, inner = Some r ->
     fst r = m /\ 1 <= snd r <= moduleCount m /\
     isModuleComplete st (num m) (num (snd r)) = false).
Proof.
  intros Hm inner. subst inner.
  pose proof (moduleCount_range m Hm) as Hc.
  unfold moduleCount in *. unfold num.
  destruct (modulesPerMission (intToString m)) as [c |]; [| lia].
  cbn [forUpTo]. split.
  - rewrite forFrom_None. split; intros H n Hn.
    + specialize (H n ltac:(lia)).
      destruct (isModuleComplete st (JNumber (Int m)) (JNumber (Int n)));
        [reflexivity | discriminate].
    + rewrite H by lia. reflexivity.
  - intros r Hr. apply forFrom_Some in Hr as (j & Hj & Hbody).
    destruct (isModuleComplete st (JNumber (Int m)) (JNumber (Int j))) eqn:Ej;
      cbn in Hbody; [discriminate |].
    injection Hbody as <-. cbn [fst snd]. split; [reflexivity |].
    split; [lia | exact Ej].
Qed.

(** C10. [getNextRecommendedModule] returns [null] exactly when every
    slot of the curriculum (every mission 1..5 with every module
    1..moduleCount of it, 16 in all) is complete; a pair it returns is
    within those bounds and is incomplete. *)
Theorem next_recommended_module_spec (st : store) :
  (getNextRecommendedModule st = None <->
   forall m n, inBounds m n -> isModuleComplete st (num m) (num n) = true) /\
  (forall m n, getNextRecommendedModule st = Some (m, n) ->
     inBounds m n /\ isModuleComplete st (num m) (num n) = false).
Proof.
  unfold getNextRecommendedModule, totalMissions. cbn [forUpTo]. split.
  - rewrite forFrom_None. change (Z.of_nat (Z.to_nat 5)) with 5. split.
    + intros H m n [Hm Hn]. unfold totalMissions in Hm.
      specialize (H m ltac:(lia)).
      apply (proj1 (next_inner st m Hm)) with (n := n) in H; assumption.
    + intros H m Hm. assert (1 <= m <= 5) as Hm' by lia.
      apply (proj1 (next_inner st m Hm')). intros n Hn.
      apply H. split; assumption.
  - intros m n Hr. apply forFrom_Some in Hr as (j & Hj & Hbody).
    change (Z.of_nat (Z.to_nat 5)) with 5 in Hj.
    assert (1 <= j <= 5) as Hj' by lia.
    destruct (proj2 (next_inner st j Hj') _ Hbody) as (H1 & H2 & H3).
    cbn [fst snd] in *. subst j. split; [split; assumption | exact H3].
Qed.

End CompletionFacts.

(** ** Previous and next module *)

Module RouterFacts.

Import Progress ProgressFacts Router.

(** C9. From a module (m, n) of the curriculum: next goes to (m, n+1)
    inside the mission, to the first module of mission m+1 from the last
    module of a mission before the fifth, and nowhere (the route stays as
    it is) from the last module of mission 5; previous goes to (m, n-1)
    inside the mission, to the last module of mission m-1 from the first
    module of a mission after the first, and nowhere from mission 1
    module 1. *)
Theorem navigate_module_steps (m n : Z) (r : router) :
  inBounds m n ->
  (n < moduleCount m -> navigateModule m n 1 r = showModule m (n + 1) r) /\
  (n = moduleCount m -> m < 5 -> navigateModule m n 1 r = showModule (m + 1) 1 r) /\
  (n = moduleCount m -> m = 5 -> navigateModule m n 1 r = r) /\
  (1 < n -> navigateModule m n (-1) r = showModule m (n - 1) r) /\
  (n = 1 -> 1 < m ->
   navigateModule m n (-1) r = showModule (m - 1) (moduleCount (m - 1)) r) /\
  (n = 1 -> m = 1 -> navigateModule m n (-1) r = r).
Proof.
  intro H. apply inBounds_cases in H. cbn [In] in H.
  repeat (destruct H as [H | H]; [injection H as <- <- |]); [.. | contradiction];
    repeat split; intros; vm_compute in *; first [discriminate | reflexivity].
Qed.

Lemma navigate_module_steps_witness :
  inBounds 3 3 /\
  navigateModule 3 3 1 (mkRouter "module-3-3") = mkRouter "module-4-1" /\
  navigateModule 3 3 (-1) (mkRouter "module-3-3") = mkRouter "module-3-2".
Proof.
  assert (inBounds 3 3) as H by (apply inBounds_intro; cbn; lia).
  split; [exact H |].
  destruct (navigate_module_steps 3 3 (mkRouter "module-3-3") H)
    as (_ & Hnext & _ & Hprev & _).
  split.
  - rewrite Hnext by (vm_compute; reflexivity). reflexivity.
  - rewrite Hprev by lia. reflexivity.
Defined.

End RouterFacts.

(** ** Import and export *)

Module ImportFacts.

Import Progress Spec PropsFacts JSFacts ProgressFacts ShapeFacts.

Lemma isValidTimestamp_ok (now : Z) (t : value) :
  isValidTimestamp now t = true -> timestampOk now t.
Proof.
  unfold isValidTimestamp, timestampOk.
  destruct t as [| | | [| z] | |]; cbn; try discriminate.
  intro H. apply andb_true_iff in H as [H H3]. apply andb_true_iff in H as [H1 H2].
  apply Z.ltb_lt in H1, H3. apply Z.leb_le in H2.
  exists z. unfold minimumDate in *. repeat split; try reflexivity; lia.
Qed.

(** What the inner loop of the validator has checked when it accepts. *)
Lemma validModuleEntries_all (now : Z) (max : Z) (mods : props) :
  validModuleEntries now (Some max) mods = true ->
  forall kn t, In (kn, t) mods -> keyIn kn 1 max /\ isValidTimestamp now t = true.
Proof.
  induction mods as [| [k v] mods IH]; cbn [validModuleEntries]; intros H kn t Hin.
  - contradiction.
  - destruct (isFalsyNumber (parseIntString k) || ltZ (parseIntString k) 1
              || gtMax (parseIntString k) (Some max)) eqn:Ek; [discriminate |].
    destruct (isValidTimestamp now v) eqn:Ev; cbn [negb] in H; [| discriminate].
    destruct Hin as [[= <- <-] | Hin]; [| exact (IH H kn t Hin)].
    split; [| exact Ev].
    apply orb_false_iff in Ek as [Ek E3]. apply orb_false_iff in Ek as [E1 E2].
    unfold keyIn. destruct (parseIntString k) as [| z]; [discriminate |].
    cbn in E2, E3. apply Z.ltb_ge in E2, E3. exists z. split; [reflexivity | lia].
Qed.

(** What the validator has checked when it accepts a record. *)
Lemma validMissionEntries_all (now : Z) (o : props) :
  validMissionEntries now o = true ->
  forall km v, In (km, v) o ->
  exists m mods,
    parseIntString km = Int m /\ 1 <= m <= 5 /\ v = JObject mods /\
    forall kn t, In (kn, t) mods ->
      keyIn kn 1 (moduleCount m) /\ isValidTimestamp now t = true.
Proof.
  induction o as [| [k v] o IH]; cbn [validMissionEntries]; intros H km v' Hin.
  - contradiction.
  - destruct (isFalsyNumber (parseIntString k) || ltZ (parseIntString k) 1
              || gtZ (parseIntString k) totalMissions) eqn:Ek; [discriminate |].
    destruct (negb (truthy v) || negb (isObject v)) eqn:Ev; [discriminate |].
    destruct (validModuleEntries now _ (objectEntries v)) eqn:Em;
      cbn [negb] in H; [| discriminate].
    destruct Hin as [[= <- <-] | Hin]; [| exact (IH H km v' Hin)].
    apply orb_false_iff in Ek as [Ek E3]. apply orb_false_iff in Ek as [E1 E2].
    destruct (parseIntString k) as [| m]; [discriminate |].
    cbn in E2, E3. unfold totalMissions in E3. apply Z.ltb_ge in E2, E3.
    apply orb_false_iff in Ev as [_ Ev]. apply negb_false_iff in Ev.
    destruct v as [| | | | | mods]; try discriminate.
    exists m, mods.
    split; [reflexivity |]. split; [lia |]. split; [reflexivity |].
    cbn [ToString objectEntries spread] in Em.
    pose proof (modulesPerMission_key m ltac:(lia)) as Hk.
    unfold moduleCount. rewrite Hk in Em |- *.
    exact (validModuleEntries_all _ _ _ Em).
Qed.

(** Every violation makes the validator reject. *)
Lemma violation_invalid (now : Z) (data : value) :
  violation now data -> isValidProgressData now data = false.
Proof.
  intro Hv. destruct (isValidProgressData now data) eqn:E; [| reflexivity].
  exfalso. apply isValidProgressData_object in E as (o' & -> & E).
  pose proof (validMissionEntries_all now o' E) as Hall.
  destruct Hv as [Hs | o km v [= ->] Hin Hk | o km v [= ->] Hin Hs
                 | o mods km kn m t [= ->] Hin Hm Hr Hin' Hk
                 | o mods km kn t [= ->] Hin Hin' Ht].
  - discriminate.
  - destruct (Hall _ _ Hin) as (m & mods & Hm & Hr & _). apply Hk.
    exists m. split; assumption.
  - destruct (Hall _ _ Hin) as (m & mods & _ & _ & -> & _). discriminate.
  - destruct (Hall _ _ Hin) as (m' & mods' & Hm' & _ & [= <-] & Hmods).
    rewrite Hm in Hm'. injection Hm' as <-.
    exact (Hk (proj1 (Hmods _ _ Hin'))).
  - destruct (Hall _ _ Hin) as (m' & mods' & _ & _ & [= <-] & Hmods).
    exact (Ht (isValidTimestamp_ok _ _ (proj2 (Hmods _ _ Hin')))).
Qed.

(** C5. For every candidate record and every store: when the candidate
    violates the structure (it is not an object, a mission entry is not an
    object, a mission key parses outside 1..5, a module key parses outside
    1..moduleCount of its mission, or a timestamp is not a positive number
    no greater than now and no earlier than the floor date),
    [importProgress] returns [false] and the store, its persisted copy
    included, is as it was. *)
Theorem import_rejects_violations (now : Z) (data : value) (st : store) :
  violation now data -> importProgress now data st = Return false st.
Proof.
  intro Hv. unfold importProgress.
  rewrite (violation_invalid now data Hv). reflexivity.
Qed.

Lemma import_rejects_violations_witness :
  let data := JObject [("7", JObject [("1", num 1600000000000)])] in
  violation 1700000000000 data /\
  importProgress 1700000000000 data (constructor None) = Return false (constructor None).
Proof.
  intro data.
  assert (violation 1700000000000 data) as Hv.
  { apply (bad_mission_key _ _ _ "7" (JObject [("1", num 1600000000000)]) eq_refl).
    - left. reflexivity.
    - intros (z & Hz & Hr). vm_compute in Hz. injection Hz as <-. lia. }
  split; [exact Hv |].
  exact (import_rejects_violations 1700000000000 data (constructor None) Hv).
Defined.

(** The envelope [exportProgress] returns is not a record:
    [importProgress] rejects it, here in a fresh store. *)
Lemma import_of_export_rejected :
  importProgress 1700000000001
    (exportProgress 1700000000000 (constructor None)) (constructor None)
  = Return false (constructor None).
Proof. vm_compute. reflexivity. Qed.

(** C1 as amended. For every store whose progress record is empty:
    [importProgress] rejects the envelope [exportProgress] returns and
    leaves the store as it was, and it accepts the envelope's [data]
    field, after which the record is again the empty one, persisted, with
    one notification emitted. *)
Theorem export_data_import_round_trip (now now' : Z) (st : store) :
  progress st = [] ->
  importProgress now' (exportProgress now st) st = Return false st /\
  exists st',
    importProgress now' (getProp (exportProgress now st) "data") st = Return true st' /\
    progress st' = progress st /\
    storage st' = Some (Json (JObject [])) /\
    emitted st' = S (emitted st).
Proof.
  intro He. unfold exportProgress. rewrite He. split; [reflexivity |].
  eexists. split; [reflexivity |]. cbn. repeat split; reflexivity.
Qed.

Lemma export_data_import_round_trip_witness :
  progress (constructor None) = [] /\
  importProgress 1700000000001
    (exportProgress 1700000000000 (constructor None)) (constructor None)
  = Return false (constructor None) /\
  exists st',
    importProgress 1700000000001
      (getProp (exportProgress 1700000000000 (constructor None)) "data")
      (constructor None) = Return true st' /\
    progress st' = progress (constructor None) /\
    storage st' = Some (Json (JObject [])) /\
    emitted st' = S (emitted (constructor None)).
Proof.
  split; [reflexivity |].
  exact (export_data_import_round_trip 1700000000000 1700000000001
           (constructor None) eq_refl).
Defined.

(** C4 at a failing input. In a fresh store, [importProgress] accepts a
    record whose mission 1 holds no module entry and keeps it as it is:
    the store reached has a mission entry with zero module entries, so
    the record invariants do not hold of it. *)
Theorem import_keeps_empty_mission :
  let st := run (ImportProgress 1700000000000 (JObject [("1", JObject [])]))
              (constructor None) in
  importProgress 1700000000000 (JObject [("1", JObject [])]) (constructor None)
    = Return true st /\
  reachable st /\
  progress st = [("1", JObject [])] /\
  existsb isEmptyMission (progress st) = true /\
  recordInvariant 1700000000000 (progress st) = false.
Proof.
  cbv zeta. split; [vm_compute; reflexivity |].
  split; [apply reachable_run, reachable_new |].
  repeat split; vm_compute; reflexivity.
Qed.

(** With a module argument that is not an integer, such as the string
    "2abc", [setModuleCompletion] accepts the call (the argument parses to
    2) and files the timestamp under the raw key, where
    [isModuleComplete(1, 2)] does not find it. *)
Lemma raw_key_stored :
  let st := run (SetModuleCompletion 1700000000000 (num 1) (JString "2abc") (JBool true))
              (constructor None) in
  progress st = [("1", JObject [("2abc", num 1700000000000)])] /\
  isModuleComplete st (num 1) (num 2) = false /\
  isModuleComplete st (num 1) (JString "2abc") = true.
Proof. cbv zeta. repeat split; vm_compute; reflexivity. Qed.

End ImportFacts.

(** ** Loading a persisted record *)

Module LoadFacts.

Import Progress Spec PropsFacts JSFacts ProgressFacts ShapeFacts ImportFacts.

(** *** Keys *)


Lemma NoDup_lookup (k : string) (v : value) (o : props) :
  NoDup (keys o) -> In (k, v) o -> lookup k o = Some v.
Proof.
  induction o as [| [k' v'] o IH]; cbn [lookup keys map fst]; intros Hnd Hin;
    [contradiction |].
  inversion Hnd as [| ? ? Hnotin Hnd']; subst.
  destruct Hin as [[= -> ->] | Hin].
  - rewrite String.eqb_refl. reflexivity.
  - destruct (String.eqb k k') eqn:E; [| exact (IH Hnd' Hin)].
    apply String.eqb_eq in E. subst. exfalso. apply Hnotin.
    apply (in_map fst) in Hin. exact Hin.
Qed.

Lemma keys_setProp (k : string) (v : value) (o : props) :
  keys (setProp k v o) = if existsb (String.eqb k) (keys o) then keys o else (keys o ++ [k])%list.
Proof.
  induction o as [| [k' v'] o IH]; cbn [setProp keys map fst existsb app];
    [reflexivity |].
  destruct (String.eqb k k') eqn:E; cbn [orb keys map fst].
  - apply String.eqb_eq in E. subst. reflexivity.
  - fold (keys (setProp k v o)). fold (keys o). rewrite IH.
    destruct (existsb (String.eqb k) (keys o)); reflexivity.
Qed.

Lemma NoDup_setProp (k : string) (v : value) (o : props) :
  NoDup (keys o) -> NoDup (keys (setProp k v o)).
Proof.
  intro H. rewrite keys_setProp.
  destruct (existsb (String.eqb k) (keys o)) eqn:E; [exact H |].
  apply NoDup_app; [exact H | repeat constructor; intros [] |].
  intros x Hx [-> | []].
  assert (existsb (String.eqb x) (keys o) = true) as Ht
    by (apply existsb_exists; exists x; split; [exact Hx | apply String.eqb_refl]).
  congruence.
Qed.


(** *** The storage read filter *)

Lemma guard_in (p : number) (max : Z) :
  isNaN p || ltZ p 1 || gtZ p max = false ->
  exists n, p = Int n /\ 1 <= n <= max.
Proof.
  destruct p as [| n]; cbn; [discriminate |]. intro H.
  apply orb_false_iff in H as [H1 H2]. apply Z.ltb_ge in H1, H2.
  exists n. split; [reflexivity | lia].
Qed.








(** Everything the filter writes is a module number under its decimal
    key holding a positive number, and comes from an entry it read. *)
Lemma validateModules_good (P : Z -> Prop) (m max : Z) (mods acc : props) :
  max = (if m =? 4 then 4 else 3) ->
  (forall kn z, In (kn, num z) mods -> keyIn kn 1 max -> 0 < z -> P z) ->
  Forall (goodModule P max) acc ->
  Forall (goodModule P max) (App.validateModules m mods acc).
Proof.
  intros Hmax. revert acc.
  induction mods as [| [k t] mods IH]; intros acc HP Hacc; cbn [App.validateModules];
    [exact Hacc |].
  assert (forall kn z, In (kn, num z) mods -> keyIn kn 1 max -> 0 < z -> P z) as HP'
    by (intros kn z Hin; apply HP; right; exact Hin).
  rewrite <- Hmax.
  destruct (isNaN (parseIntString k) || ltZ (parseIntString k) 1
            || gtZ (parseIntString k) max) eqn:G; [exact (IH acc HP' Hacc) |].
  destruct (guard_in _ _ G) as (n & Hp & Hn). rewrite Hp.
  destruct t as [| | | [| z] | |]; try exact (IH acc HP' Hacc).
  cbn [gtZ]. destruct (0 <? z) eqn:Hz; [| exact (IH acc HP' Hacc)].
  apply Z.ltb_lt in Hz. apply IH; [exact HP' |].
  apply Forall_setProp; [| exact Hacc].
  exists n, z. cbn [fst snd]. repeat split; try lia.
  apply (HP k z); [left; reflexivity | exists n; split; [exact Hp | exact Hn] | exact Hz].
Qed.

Lemma validateMissions_good (P : Z -> Prop) (o acc : props) :
  (forall km mods m kn z,
      In (km, JObject mods) o -> parseIntString km = Int m -> 1 <= m <= 5 ->
      In (kn, num z) mods -> keyIn kn 1 (moduleCount m) -> 0 < z -> P z) ->
  Forall (goodMission P) acc ->
  Forall (goodMission P) (App.validateMissions o acc).
Proof.
  revert acc.
  induction o as [| [k v] o IH]; intros acc HP Hacc; cbn [App.validateMissions];
    [exact Hacc |].
  assert (forall km mods m kn z,
             In (km, JObject mods) o -> parseIntString km = Int m -> 1 <= m <= 5 ->
             In (kn, num z) mods -> keyIn kn 1 (moduleCount m) -> 0 < z -> P z) as HP'
    by (intros km mods m kn z Hin; apply (HP km mods); right; exact Hin).
  destruct (isNaN (parseIntString k) || ltZ (parseIntString k) 1
            || gtZ (parseIntString k) 5) eqn:G; [exact (IH acc HP' Hacc) |].
  destruct (guard_in _ _ G) as (m & Hp & Hm). rewrite Hp.
  destruct v as [| | | | | mods]; try exact (IH acc HP' Hacc).
  apply IH; [exact HP' |].
  apply Forall_setProp; [| exact Hacc].
  exists m, (App.validateModules m mods []). cbn [fst snd].
  split; [reflexivity |]. split; [exact Hm |]. split; [reflexivity |].
  apply validateModules_good; [apply moduleCount_eq, Hm | | constructor].
  intros kn z Hin Hk Hz.
  exact (HP k mods m kn z (or_introl eq_refl) Hp Hm Hin Hk Hz).
Qed.

(** *** What the filter writes survives serialisation and validation *)

Lemma jsonMembers_good (P : Z -> Prop) (max : Z) (mods : props) :
  Forall (goodModule P max) mods -> jsonMembers jsonOf mods = mods.
Proof.
  induction 1 as [| [k t] mods (n & z & _ & _ & Ht & _) _ IH]; [reflexivity |].
  cbn [snd] in Ht. subst t. cbn [jsonMembers num jsonOf]. rewrite IH. reflexivity.
Qed.

Lemma jsonOf_good (P : Z -> Prop) (p : props) :
  Forall (goodMission P) p -> jsonOf (JObject p) = JObject p.
Proof.
  intro H. cbn [jsonOf]. f_equal.
  induction H as [| [k v] p (m & mods & _ & _ & Hv & Hmods) _ IH]; [reflexivity |].
  cbn [snd] in Hv. subst v. cbn [jsonMembers jsonOf].
  rewrite (jsonMembers_good _ _ _ Hmods), IH. reflexivity.
Qed.

Lemma isValidTimestamp_num (now z : Z) :
  isValidTimestamp now (num z) = true <-> 0 < z /\ plausible now z.
Proof.
  unfold plausible. cbn. rewrite !andb_true_iff, !Z.ltb_lt, Z.leb_le. tauto.
Qed.

Lemma good_validModuleEntries (now max : Z) (mods : props) :
  Forall (goodModule (plausible now) max) mods ->
  validModuleEntries now (Some max) mods = true.
Proof.
  induction 1 as [| [k t] mods (n & z & Hk & Hn & Ht & Hz & HP) _ IH];
    [reflexivity |].
  cbn [fst snd] in Hk, Ht. subst k t. cbn [validModuleEntries].
  rewrite parseIntString_intToString.
  replace (isFalsyNumber (Int n) || ltZ (Int n) 1 || gtMax (Int n) (Some max))
    with false.
  - rewrite (proj2 (isValidTimestamp_num now z)) by (split; assumption). exact IH.
  - symmetry. cbn. rewrite !orb_false_iff. repeat split;
      [apply Z.eqb_neq | apply Z.ltb_ge | apply Z.ltb_ge]; lia.
Qed.

Lemma good_validMissionEntries (now : Z) (p : props) :
  Forall (goodMission (plausible now)) p -> validMissionEntries now p = true.
Proof.
  induction 1 as [| [k v] p (m & mods & Hk & Hm & Hv & Hmods) _ IH];
    [reflexivity |].
  cbn [fst snd] in Hk, Hv. subst k v. cbn [validMissionEntries].
  rewrite parseIntString_intToString.
  replace (isFalsyNumber (Int m) || ltZ (Int m) 1 || gtZ (Int m) totalMissions)
    with false.
  - cbn [truthy isObject negb orb ToString objectEntries spread].
    rewrite modulesPerMission_key by exact Hm.
    rewrite <- moduleCount_eq by exact Hm.
    rewrite (good_validModuleEntries _ _ _ Hmods). exact IH.
  - symmetry. unfold totalMissions. cbn. rewrite !orb_false_iff. repeat split;
      [apply Z.eqb_neq | apply Z.ltb_ge | apply Z.ltb_ge]; lia.
Qed.

(** *** The clean-up pass on a record the validator accepts *)

Lemma cleanModules_valid (now : Z) (max : option Z) (entries mods : props) (h : bool) :
  validModuleEntries now max entries = true ->
  cleanModules now max entries mods h = (mods, h).
Proof.
  induction entries as [| [k t] entries IH]; cbn [validModuleEntries cleanModules];
    [reflexivity |].
  destruct (isFalsyNumber (parseIntString k) || ltZ (parseIntString k) 1
            || gtMax (parseIntString k) max); [discriminate |].
  destruct (isValidTimestamp now t); cbn [negb orb]; [exact IH | discriminate].
Qed.

Lemma entryAt_other (k : string) (v : value) (p : props) (m n : Z) :
  intToString m <> k -> entryAt (setProp k v p) m n = entryAt p m n.
Proof. intro H. unfold entryAt. rewrite lookup_setProp_neq by exact H. reflexivity. Qed.

Lemma entryAt_deleted_other (k : string) (p : props) (m n : Z) :
  intToString m <> k -> entryAt (delProp k p) m n = entryAt p m n.
Proof. intro H. unfold entryAt. rewrite lookup_delProp_neq by exact H. reflexivity. Qed.

Lemma In_setProp (kv : string * value) (k : string) (v : value) (o : props) :
  In kv (setProp k v o) -> kv = (k, v) \/ In kv o.
Proof.
  induction o as [| [k' v'] o IH]; cbn [setProp].
  - intros [<- | []]. left. reflexivity.
  - destruct (String.eqb k k'); intros [<- | H].
    + left. reflexivity.
    + right. right. exact H.
    + right. left. reflexivity.
    + destruct (IH H) as [-> | H']; [left; reflexivity | right; right; exact H'].
Qed.

Lemma In_delProp (kv : string * value) (k : string) (o : props) :
  In kv (delProp k o) -> In kv o /\ fst kv <> k.
Proof.
  unfold delProp. intro H. apply filter_In in H as [H Hk]. split; [exact H |].
  apply negb_true_iff, String.eqb_neq in Hk. congruence.
Qed.

(** On a record as the filter writes it, the clean-up pass throws
    nothing and leaves every slot as it was: it only removes the mission
    entries that hold no module, and all of them. *)
Lemma cleanMissions_good (now : Z) (entries p : props) (h : bool) :
  Forall (goodMission (plausible now)) entries ->
  NoDup (keys entries) ->
  (forall k v, In (k, v) entries -> lookup k p = Some v) ->
  Forall (goodMission (plausible now)) p ->
  (forall kv, In kv p -> isEmptyMission kv = true -> In kv entries) ->
  exists p' h',
    cleanMissions now entries p h = (p', Some h') /\
    (forall m n, entryAt p' m n = entryAt p m n) /\
    Forall (goodMission (plausible now)) p' /\
    existsb isEmptyMission p' = false.
Proof.
  intro Hgood. revert p h.
  induction Hgood as [| [k v] entries (m & mods & Hk & Hm & Hv & Hmods) _ IH];
    intros p h Hnd Hp Hgp Hempty.
  - exists p, h. repeat split; try assumption.
    destruct (existsb isEmptyMission p) eqn:E; [| reflexivity].
    apply existsb_exists in E as (kv & Hin & He). destruct (Hempty kv Hin He).
  - cbn [fst snd] in Hk, Hv. subst k v.
    cbn [keys map fst] in Hnd. inversion Hnd as [| ? ? Hfresh Hnd']; subst.
    pose proof (Hp _ _ (or_introl eq_refl)) as Hhere.
    cbn [cleanMissions]. rewrite parseIntString_intToString.
    replace (isFalsyNumber (Int m) || ltZ (Int m) 1 || gtZ (Int m) totalMissions)
      with false
      by (symmetry; unfold totalMissions; cbn; rewrite !orb_false_iff; repeat split;
          [apply Z.eqb_neq | apply Z.ltb_ge | apply Z.ltb_ge]; lia).
    cbn [ToString]. rewrite modulesPerMission_key by exact Hm.
    rewrite <- moduleCount_eq by exact Hm.
    rewrite (cleanModules_valid _ _ _ _ _ (good_validModuleEntries _ _ _ Hmods)).
    unfold writeBack. rewrite Hhere.
    assert (forall k' v', In (k', v') entries -> intToString m <> k') as Hother.
    { intros k' v' Hin <-. apply Hfresh. apply (in_map fst) in Hin. exact Hin. }
    assert (goodMission (plausible now) (intToString m, JObject mods)) as Hentry
      by (exists m, mods; repeat split; try assumption; lia).
    pose proof (Forall_setProp _ (intToString m) (JObject mods) p Hentry Hgp) as Hgp1.
    destruct (List.length (keys mods) =? 0)%nat eqn:El.
    + destruct (IH (delProp (intToString m) (setProp (intToString m) (JObject mods) p))
                  true Hnd') as (p' & h' & Hrun & Hslots & Hgp' & He').
      { intros k' v' Hin. pose proof (Hother _ _ Hin) as Hne.
        rewrite lookup_delProp_neq, lookup_setProp_neq by congruence.
        apply Hp. right. exact Hin. }
      { apply Forall_delProp, Hgp1. }
      { intros kv Hin He. apply In_delProp in Hin as [Hin Hne].
        apply In_setProp in Hin as [-> | Hin]; [contradiction Hne; reflexivity |].
        destruct (Hempty kv Hin He) as [<- | Hrest];
          [contradiction Hne; reflexivity | exact Hrest]. }
      exists p', h'. split; [exact Hrun |]. split; [| split; assumption].
      intros m' n'. rewrite Hslots.
      destruct (string_dec (intToString m') (intToString m)) as [Heq | Hne].
      * unfold entryAt. rewrite Heq, lookup_delProp_eq, Hhere.
        destruct mods; [reflexivity | discriminate].
      * rewrite entryAt_deleted_other, entryAt_other by exact Hne. reflexivity.
    + destruct (IH (setProp (intToString m) (JObject mods) p) h Hnd')
        as (p' & h' & Hrun & Hslots & Hgp' & He').
      { intros k' v' Hin. pose proof (Hother _ _ Hin) as Hne.
        rewrite lookup_setProp_neq by congruence.
        apply Hp. right. exact Hin. }
      { exact Hgp1. }
      { intros kv Hin He.
        apply In_setProp in Hin as [-> | Hin];
          [unfold isEmptyMission in He; cbn [snd] in He; congruence |].
        destruct (Hempty kv Hin He) as [<- | Hrest]; [| exact Hrest].
        unfold isEmptyMission in He. cbn [snd] in He. congruence. }
      exists p', h'. split; [exact Hrun |]. split; [| split; assumption].
      intros m' n'. rewrite Hslots.
      destruct (string_dec (intToString m') (intToString m)) as [Heq | Hne].
      * unfold entryAt. rewrite Heq, lookup_setProp_eq, Hhere. reflexivity.
      * rewrite entryAt_other by exact Hne. reflexivity.
Qed.

Lemma validateMissions_NoDup (o acc : props) :
  NoDup (keys acc) -> NoDup (keys (App.validateMissions o acc)).
Proof.
  revert acc. induction o as [| [k v] o IH]; intros acc H; cbn [App.validateMissions];
    [exact H |].
  destruct (isNaN _ || _ || _); [exact (IH acc H) |].
  destruct (parseIntString k); [exact (IH acc H) |].
  destruct v; try exact (IH acc H).
  apply IH, NoDup_setProp, H.
Qed.



(** *** Loading *)






(** The example of the specification: mission 1 persisted with modules
    1, 9 and 2, the last with a timestamp of 0.  Only module 1 is left. *)
Example load_drops_module_nine :
  let o := [("1", JObject [("1", num 1600000000000); ("9", num 1600000000001);
                           ("2", num 0)])] in
  progress (finalStore (init 1700000000000 (constructor (Some (Json (JObject o))))))
  = [("1", JObject [("1", num 1600000000000)])].
Proof. vm_compute. reflexivity. Qed.


End LoadFacts.

(** ** The sanitizer *)

Module ContentFacts.

Import Content.





(** *** The attribute loop *)

Lemma removeAttribute_middle (a : attribute) (pre rest : list attribute) :
  ~ In (fst a) (map fst pre) ->
  removeAttribute (fst a) (pre ++ a :: rest) = (pre ++ rest)%list.
Proof.
  induction pre as [| b pre IH]; cbn [app map removeAttribute]; intro H.
  - rewrite String.eqb_refl. reflexivity.
  - destruct (String.eqb (fst a) (fst b)) eqn:E.
    + apply String.eqb_eq in E. exfalso. apply H. left. symmetry. exact E.
    + rewrite IH; [reflexivity |]. intro Hin. apply H. right. exact Hin.
Qed.

Lemma nth_error_middle (a : attribute) (pre rest : list attribute) :
  nth_error (pre ++ a :: rest) (List.length pre) = Some a.
Proof. induction pre as [| b pre IH]; [reflexivity | exact IH]. Qed.

Lemma nth_error_end (pre : list attribute) :
  nth_error pre (List.length pre) = None.
Proof. induction pre as [| b pre IH]; [reflexivity | exact IH]. Qed.

Lemma attributeLoop_done (fuel : nat) (pre : list attribute) :
  attributeLoop fuel (List.length pre) pre = pre.
Proof. destruct fuel; cbn [attributeLoop]; [| rewrite nth_error_end]; reflexivity. Qed.

(** The loop, started at index [length pre] on [pre ++ post], leaves
    [pre] and treats [post] as [skipNext] says. *)
Lemma attributeLoop_skipNext (fuel : nat) (pre post : list attribute) :
  NoDup (map fst (pre ++ post)) -> (List.length post < fuel)%nat ->
  attributeLoop fuel (List.length pre) (pre ++ post) = (pre ++ skipNext post)%list.
Proof.
  revert pre post. induction fuel as [| fuel IH]; intros pre post Hnd Hfuel; [lia |].
  destruct post as [| a rest].
  - cbn [skipNext]. rewrite !app_nil_r. apply attributeLoop_done.
  - cbn [attributeLoop skipNext]. rewrite nth_error_middle.
    assert (forall x l, (pre ++ x :: l)%list = ((pre ++ [x]) ++ l)%list) as Hsnoc
      by (intros; rewrite <- app_assoc; reflexivity).
    assert (forall x, S (List.length pre) = List.length (pre ++ [x])) as Hlen
      by (intro; rewrite length_app; cbn; lia).
    cbn [List.length] in Hfuel.
    destruct (String.prefix "on" (fst a)) eqn:Ea.
    + rewrite removeAttribute_middle.
      2:{ rewrite map_app in Hnd. cbn [map] in Hnd.
          apply NoDup_remove_2 in Hnd. intro Hin. apply Hnd.
          apply in_or_app. left. exact Hin. }
      assert (NoDup (map fst (pre ++ rest))) as Hnd'
        by (rewrite map_app in Hnd |- *; cbn [map] in Hnd;
            exact (NoDup_remove_1 _ _ _ Hnd)).
      destruct rest as [| b rest'].
      * rewrite app_nil_r. rewrite (Hlen a).
        destruct fuel; cbn [attributeLoop]; [reflexivity |].
        replace (nth_error pre (List.length (pre ++ [a]))) with (@None attribute);
          [reflexivity |].
        symmetry. apply nth_error_None. rewrite length_app. cbn. lia.
      * rewrite (Hsnoc b rest'), (Hsnoc b (skipNext rest')), (Hlen b). apply IH.
        -- rewrite <- Hsnoc. exact Hnd'.
        -- cbn [List.length] in Hfuel. lia.
    + rewrite (Hsnoc a rest), (Hsnoc a (skipNext rest)), (Hlen a). apply IH.
      * rewrite <- Hsnoc. exact Hnd.
      * lia.
Qed.

(** On an element, whose attribute names are distinct, the loop is
    [skipNext]: every handler that directly follows a removed handler
    stays. *)
Lemma removeHandlers_skipNext (attrs : list attribute) :
  NoDup (map fst attrs) -> removeHandlers attrs = skipNext attrs.
Proof.
  intro H. unfold removeHandlers.
  exact (attributeLoop_skipNext (S (List.length attrs)) [] attrs H (Nat.lt_succ_diag_r _)).
Qed.

(** C2 at a failing input. On an element that carries two event-handler
    attributes next to each other, the loop removes the first and never
    reads the second: the result still carries [onload]. *)
Theorem sanitizeHTML_keeps_second_handler :
  let fragment :=
    [Element "img" [("src", "x.png"); ("onerror", "a()"); ("onload", "b()")] []] in
  sanitizeHTML fragment = [Element "img" [("src", "x.png"); ("onload", "b()")] []] /\
  isClean (sanitizeHTML fragment) = false.
Proof. cbv zeta. split; vm_compute; reflexivity. Qed.

End ContentFacts.

(** ** The record slot by slot *)

Module SlotFacts.

Import Progress Spec PropsFacts JSFacts ProgressFacts ShapeFacts CompletionFacts.


Lemma completionTime_slot (st : store) (m n : Z) :
  shaped (progress st) -> inBounds m n ->
  getModuleCompletionTime st (num m) (num n) =
  match entryAt (progress st) m n with
  | Some t => if truthy t then t else JNull
  | None => JNull
  end.
Proof.
  intros Hs Hb. unfold getModuleCompletionTime, entryAt.
  rewrite (proj2 (isValidMissionModule_num m n) Hb).
  cbn [negb ToString num].
  destruct (lookup (intToString m) (progress st)) as [v |] eqn:E; [| reflexivity].
  destruct (shaped_lookup _ _ _ Hs E) as [mods ->]. cbn [getProp].
  destruct (lookup (intToString n) mods); reflexivity.
Qed.

Lemma key_eqb (a b : Z) :
  String.eqb (intToString a) (intToString b) = (a =? b).
Proof.
  destruct (Z.eqb_spec a b) as [-> | Hne]; [apply String.eqb_refl |].
  apply String.eqb_neq. intro H. apply intToString_inj in H. contradiction.
Qed.

Lemma lookup_setProp (k k' : string) (v : value) (o : props) :
  lookup k (setProp k' v o) = if String.eqb k k' then Some v else lookup k o.
Proof.
  destruct (String.eqb k k') eqn:E.
  - apply String.eqb_eq in E. subst. apply lookup_setProp_eq.
  - apply String.eqb_neq in E. apply lookup_setProp_neq, E.
Qed.

Lemma lookup_delProp (k k' : string) (o : props) :
  lookup k (delProp k' o) = if String.eqb k k' then None else lookup k o.
Proof.
  destruct (String.eqb k k') eqn:E.
  - apply String.eqb_eq in E. subst. apply lookup_delProp_eq.
  - apply String.eqb_neq in E. apply lookup_delProp_neq, E.
Qed.

Lemma keys_nil (o : props) : (List.length (keys o) =? 0)%nat = true -> o = [].
Proof. destruct o; [reflexivity | discriminate]. Qed.

(** The record after [setModuleCompletion(m, n, true)], slot by slot. *)
Lemma set_true_slots (st : store) (now m n : Z) :
  shaped (progress st) -> inBounds m n ->
  exists p',
    setModuleCompletion now (num m) (num n) (JBool true) st
      = Return true (emit (saveProgress (withProgress p' st))) /\
    forall m' n',
      entryAt p' m' n' =
      if (m' =? m) && (n' =? n) then Some (num now) else entryAt (progress st) m' n'.
Proof.
  intros Hs Hb.
  destruct (setModuleCompletion_true st now m n Hs Hb) as (o & Ho & ->).
  eexists. split; [reflexivity |]. intros m' n'. unfold entryAt.
  rewrite lookup_setProp, key_eqb.
  destruct (m' =? m) eqn:Em; cbn [andb].
  - apply Z.eqb_eq in Em. subst m'.
    rewrite lookup_setProp, key_eqb.
    destruct (n' =? n); [reflexivity |].
    destruct Ho as [-> | [-> ->]]; reflexivity.
  - destruct Ho as [-> | [E ->]]; [reflexivity |].
    rewrite E. cbv beta iota.
    rewrite lookup_setProp, key_eqb, Em. reflexivity.
Qed.

(** The record after [setModuleCompletion(m, n, false)], slot by slot. *)
Lemma set_false_slots (st : store) (now m n : Z) :
  shaped (progress st) -> inBounds m n ->
  exists p',
    setModuleCompletion now (num m) (num n) (JBool false) st
      = Return true (emit (saveProgress (withProgress p' st))) /\
    forall m' n',
      entryAt p' m' n' =
      if (m' =? m) && (n' =? n) then None else entryAt (progress st) m' n'.
Proof.
  intros Hs Hb. unfold setModuleCompletion.
  rewrite isValidMissionModule_in by exact Hb.
  cbn [negb truthy ToString num]. cbv zeta.
  destruct (lookup (intToString m) (progress st)) as [v |] eqn:E.
  - destruct (shaped_lookup _ _ _ Hs E) as [o ->]. cbn [truthy].
    destruct (List.length _ =? 0)%nat eqn:El;
      (eexists; split; [reflexivity |]); intros m' n'; unfold entryAt.
    + apply keys_nil in El.
      rewrite lookup_delProp, key_eqb.
      destruct (m' =? m) eqn:Em; cbn [andb].
      * apply Z.eqb_eq in Em. subst m'. rewrite E.
        destruct (n' =? n) eqn:En; [reflexivity |].
        rewrite <- (lookup_delProp_neq (intToString n') (intToString n) o), El;
          [reflexivity |].
        intro H. apply intToString_inj in H. apply Z.eqb_neq in En. contradiction.
      * rewrite lookup_setProp, key_eqb, Em. reflexivity.
    + rewrite lookup_setProp, key_eqb.
      destruct (m' =? m) eqn:Em; cbn [andb]; [| reflexivity].
      apply Z.eqb_eq in Em. subst m'. rewrite E, lookup_delProp, key_eqb.
      destruct (n' =? n); reflexivity.
  - eexists; split; [reflexivity |]. intros m' n'. unfold entryAt.
    destruct (m' =? m) eqn:Em; cbn [andb]; [| reflexivity].
    apply Z.eqb_eq in Em. subst m'. rewrite E.
    destruct (n' =? n); reflexivity.
Qed.

End SlotFacts.

(** ** Further properties of the progress store *)

Module StoreExtras.

Import Progress ProgressViews Sessions Spec.
Import PropsFacts JSFacts ProgressFacts ShapeFacts CompletionFacts SlotFacts.




Lemma shaped_after_set (now : Z) (mission module completed : value) (b : bool)
    (st st' : store) :
  shaped (progress st) ->
  setModuleCompletion now mission module completed st = Return b st' ->
  shaped (progress st').
Proof.
  intros Hs H.
  pose proof (setModuleCompletion_shaped now mission module completed st Hs) as Hs'.
  rewrite H in Hs'. exact Hs'.
Qed.


(** What a successful call on a slot within the bounds leaves, for
    either value of the completion flag. *)
Lemma set_slots (st : store) (now m n : Z) (b : bool) :
  shaped (progress st) -> inBounds m n ->
  exists st',
    setModuleCompletion now (num m) (num n) (JBool b) st = Return true st' /\
    shaped (progress st') /\
    storage st' = Some (stringify (progress st')) /\
    emitted st' = S (emitted st) /\
    forall m' n',
      entryAt (progress st') m' n' =
      if (m' =? m) && (n' =? n)
      then (if b then Some (num now) else None)
      else entryAt (progress st) m' n'.
Proof.
  intros Hs Hb.
  assert (exists p',
             setModuleCompletion now (num m) (num n) (JBool b) st
               = Return true (emit (saveProgress (withProgress p' st))) /\
             forall m' n',
               entryAt p' m' n' =
               if (m' =? m) && (n' =? n)
               then (if b then Some (num now) else None)
               else entryAt (progress st) m' n') as (p' & Hrun & Hslots)
    by (destruct b; [apply set_true_slots | apply set_false_slots]; assumption).
  eexists. split; [exact Hrun |].
  split; [exact (shaped_after_set _ _ _ _ _ _ _ Hs Hrun) |].
  repeat split. exact Hslots.
Qed.



(** X4. In every store a page can reach, after
    [setModuleCompletion(m, n, true)] at a positive clock reading
    [getModuleCompletionTime(m, n)] is that clock reading, and after
    [setModuleCompletion(m, n, false)] it is [null]. *)
Theorem completion_time_round_trip (st : store) (now m n : Z) :
  reachable st -> inBounds m n -> 0 < now ->
  (exists st1,
      setModuleCompletion now (num m) (num n) (JBool true) st = Return true st1 /\
      getModuleCompletionTime st1 (num m) (num n) = num now) /\
  (exists st2,
      setModuleCompletion now (num m) (num n) (JBool false) st = Return true st2 /\
      getModuleCompletionTime st2 (num m) (num n) = JNull).
Proof.
  intros Hr Hb Hnow. apply reachable_shaped in Hr. split.
  - destruct (set_slots st now m n true Hr Hb) as (st' & Hrun & Hs' & _ & _ & Hslots).
    exists st'. split; [exact Hrun |].
    rewrite completionTime_slot, Hslots, !Z.eqb_refl by assumption. cbn [andb].
    rewrite (truthy_timestamp now Hnow). reflexivity.
  - destruct (set_slots st now m n false Hr Hb) as (st' & Hrun & Hs' & _ & _ & Hslots).
    exists st'. split; [exact Hrun |].
    rewrite completionTime_slot, Hslots, !Z.eqb_refl by assumption. reflexivity.
Qed.

Lemma completion_time_round_trip_witness :
  reachable (constructor None) /\ inBounds 5 3 /\ 0 < 1700000000000 /\
  (exists st1,
      setModuleCompletion 1700000000000 (num 5) (num 3) (JBool true) (constructor None)
        = Return true st1 /\
      getModuleCompletionTime st1 (num 5) (num 3) = num 1700000000000) /\
  (exists st2,
      setModuleCompletion 1700000000000 (num 5) (num 3) (JBool false) (constructor None)
        = Return true st2 /\
      getModuleCompletionTime st2 (num 5) (num 3) = JNull).
Proof.
  assert (inBounds 5 3) as Hb by (apply inBounds_intro; cbn; lia).
  assert (0 < 1700000000000) as Hnow by lia.
  split; [constructor |]. split; [exact Hb |]. split; [exact Hnow |].
  exact (completion_time_round_trip (constructor None) 1700000000000 5 3
           (reachable_new None) Hb Hnow).
Defined.

(** X5. In every store a page can reach and for any arguments,
    [isModuleComplete] says [true] exactly when
    [getModuleCompletionTime] returns something other than [null]. *)
Theorem complete_iff_has_completion_time (st : store) (mission module : value) :
  reachable st ->
  (isModuleComplete st mission module = true <->
   getModuleCompletionTime st mission module <> JNull).
Proof.
  intro Hr. apply reachable_shaped in Hr.
  unfold isModuleComplete, getModuleCompletionTime.
  destruct (isValidMissionModule mission module); cbn [negb];
    [| split; [discriminate | intro H; contradiction H; reflexivity]].
  destruct (lookup (ToString mission) (progress st)) as [v |] eqn:E;
    [| split; [discriminate | intro H; contradiction H; reflexivity]].
  destruct (shaped_lookup _ _ _ Hr E) as [o ->]. cbn [truthy].
  destruct (truthy (getProp (JObject o) (ToString module))) eqn:Et.
  - split; [| reflexivity]. intros _ Hnull. rewrite Hnull in Et. discriminate.
  - split; [discriminate | intro H; contradiction H; reflexivity].
Qed.

Lemma complete_iff_has_completion_time_witness :
  let st := run (SetModuleCompletion 1700000000000 (num 3) (JString "2") (JBool true))
              (constructor None) in
  reachable st /\
  (isModuleComplete st (JString "3") (num 2) = true <->
   getModuleCompletionTime st (JString "3") (num 2) <> JNull).
Proof.
  intro st.
  assert (reachable st) as Hr by (apply reachable_run, reachable_new).
  split; [exact Hr |].
  exact (complete_iff_has_completion_time st (JString "3") (num 2) Hr).
Defined.



(** *** Counting *)

Lemma forAcc_sum (count : nat) (i : Z) (body : Z -> Z -> Z) (f : Z -> Z) (s : Z) :
  (forall j a, body j a = a + f j) ->
  forAcc count i body s = s + sumFrom count i f.
Proof.
  intro Hbody. revert i s. induction count as [| count IH]; intros i s;
    cbn [forAcc sumFrom]; [lia |].
  rewrite IH, Hbody. lia.
Qed.

Lemma getCompletedModules_slots (st : store) :
  getCompletedModules st = completedIn st slots.
Proof.
  unfold getCompletedModules, forAccUpTo, totalMissions.
  rewrite (forAcc_sum _ _ _
             (fun mission =>
                match modulesPerMission (intToString mission) with
                | Some h =>
                    sumFrom (Z.to_nat h) 1
                      (fun module => completeSlot st (mission, module))
                | None => 0
                end)).
  - change (Z.to_nat 5) with 5%nat. cbn -[isModuleComplete Z.to_nat].
    change (Z.to_nat 3) with 3%nat. change (Z.to_nat 4) with 4%nat.
    cbn -[isModuleComplete]. lia.
  - intros mission a. cbv zeta.
    destruct (modulesPerMission (intToString mission)) as [h |]; [| lia].
    apply forAcc_sum. intros module b. unfold completeSlot. cbn [fst snd].
    destruct (isModuleComplete st (num mission) (num module)); lia.
Qed.

Lemma completeSlot_range (st : store) (slot : Z * Z) : 0 <= completeSlot st slot <= 1.
Proof. unfold completeSlot. destruct (isModuleComplete _ _ _); lia. Qed.

Lemma completedIn_range (st : store) (l : list (Z * Z)) :
  0 <= completedIn st l <= Z.of_nat (List.length l).
Proof.
  induction l as [| slot l IH]; cbn [completedIn List.length]; [lia |].
  pose proof (completeSlot_range st slot). lia.
Qed.

Lemma completedIn_full (st : store) (l : list (Z * Z)) :
  completedIn st l = Z.of_nat (List.length l) <->
  forall slot, In slot l -> isModuleComplete st (num (fst slot)) (num (snd slot)) = true.
Proof.
  induction l as [| slot l IH]; cbn [completedIn List.length In].
  - split; [intros _ x [] | reflexivity].
  - pose proof (completedIn_range st l) as Hr.
    pose proof (completeSlot_range st slot) as Hs.
    unfold completeSlot in *.
    destruct (isModuleComplete st (num (fst slot)) (num (snd slot))) eqn:E.
    + split.
      * intros H x [<- | Hx]; [exact E | apply IH; [lia | exact Hx]].
      * intro H. assert (completedIn st l = Z.of_nat (List.length l)) as ->
          by (apply IH; intros x Hx; apply H; right; exact Hx). lia.
    + split; [intro H; lia |].
      intro H. rewrite (H slot (or_introl eq_refl)) in E. discriminate.
Qed.

Lemma completedIn_none (st : store) (l : list (Z * Z)) :
  completedIn st l = 0 <->
  forall slot, In slot l -> isModuleComplete st (num (fst slot)) (num (snd slot)) = false.
Proof.
  induction l as [| slot l IH]; cbn [completedIn In].
  - split; [intros _ x [] | reflexivity].
  - pose proof (completedIn_range st l) as Hr. unfold completeSlot.
    destruct (isModuleComplete st (num (fst slot)) (num (snd slot))) eqn:E.
    + split; [intro H; lia |].
      intro H. rewrite (H slot (or_introl eq_refl)) in E. discriminate.
    + split.
      * intros H x [<- | Hx]; [exact E | apply IH; [lia | exact Hx]].
      * intro H. assert (completedIn st l = 0) as ->
          by (apply IH; intros x Hx; apply H; right; exact Hx). lia.
Qed.

Lemma slots_inBounds (m n : Z) : In (m, n) slots <-> inBounds m n.
Proof.
  split; [| apply inBounds_cases].
  unfold slots. cbn [In]. intro H.
  repeat (destruct H as [H | H]; [injection H as <- <-; apply inBounds_intro; cbn; lia |]).
  contradiction.
Qed.

Lemma getNext_None (st : store) :
  getNextRecommendedModule st = None <->
  forall m n, inBounds m n -> isModuleComplete st (num m) (num n) = true.
Proof.
  unfold getNextRecommendedModule, totalMissions. cbn [forUpTo].
  rewrite forFrom_None. change (Z.of_nat (Z.to_nat 5)) with 5. split.
  - intros H m n [Hm Hn]. unfold totalMissions in Hm.
    specialize (H m ltac:(lia)).
    apply (proj1 (next_inner st m Hm)) with (n := n) in H; assumption.
  - intros H m Hm. assert (1 <= m <= 5) as Hm' by lia.
    apply (proj1 (next_inner st m Hm')). intros n Hn.
    apply H. split; assumption.
Qed.

(** X7. [getTotalModules] is 16 and [getCompletedModules] lies between
    0 and 16; it is 16 exactly when [getNextRecommendedModule] returns
    [null], and 0 exactly when no slot of the curriculum is complete. *)
Theorem completed_modules_count (st : store) :
  getTotalModules = 16 /\
  0 <= getCompletedModules st <= 16 /\
  (getCompletedModules st = 16 <-> getNextRecommendedModule st = None) /\
  (getCompletedModules st = 0 <->
   forall m n, inBounds m n -> isModuleComplete st (num m) (num n) = false).
Proof.
  rewrite getCompletedModules_slots.
  split; [reflexivity |].
  split; [exact (completedIn_range st slots) |]. split.
  - rewrite getNext_None.
    change 16 with (Z.of_nat (List.length slots)). rewrite completedIn_full. split.
    + intros H m n Hb. exact (H (m, n) (proj2 (slots_inBounds m n) Hb)).
    + intros H [m n] Hin. exact (H m n (proj1 (slots_inBounds m n) Hin)).
  - rewrite completedIn_none. split.
    + intros H m n Hb. exact (H (m, n) (proj2 (slots_inBounds m n) Hb)).
    + intros H [m n] Hin. exact (H m n (proj1 (slots_inBounds m n) Hin)).
Qed.

Lemma completed_modules_count_aux (st : store) :
  0 <= getCompletedModules st <= 16 /\
  (getCompletedModules st = 16 <-> getNextRecommendedModule st = None).
Proof.
  rewrite getCompletedModules_slots. split; [exact (completedIn_range st slots) |].
  rewrite getNext_None.
  change 16 with (Z.of_nat (List.length slots)). rewrite completedIn_full. split.
  - intros H m n Hb. exact (H (m, n) (proj2 (slots_inBounds m n) Hb)).
  - intros H [m n] Hin. exact (H m n (proj1 (slots_inBounds m n) Hin)).
Qed.

(** X8. [getOverallProgress] lies between 0 and 100 and grows with the
    number of completed modules; it is 100 exactly when every slot is
    complete ([getNextRecommendedModule] returns [null]), 0 exactly when
    none is, and 50 when 8 are. *)
Theorem overall_progress_percentage (st st' : store) :
  0 <= getOverallProgress st <= 100 /\
  (getCompletedModules st <= getCompletedModules st' ->
   getOverallProgress st <= getOverallProgress st') /\
  (getOverallProgress st = 100 <-> getNextRecommendedModule st = None) /\
  (getOverallProgress st = 0 <-> getCompletedModules st = 0) /\
  (getCompletedModules st = 8 -> getOverallProgress st = 50).
Proof.
  destruct (completed_modules_count_aux st) as (Hr & Hfull).
  destruct (completed_modules_count_aux st') as (Hr' & _).
  unfold getOverallProgress, roundedPercent.
  change getTotalModules with 16. cbn [Z.eqb].
  change (2 * 16) with 32.
  assert (forall c, 0 <= c <= 16 ->
            0 <= (200 * c + 16) / 32 <= 100 /\
            ((200 * c + 16) / 32 = 100 <-> c = 16) /\
            ((200 * c + 16) / 32 = 0 <-> c = 0)) as Hdiv.
  { intros c Hc.
    assert (c = 0 \/ c = 1 \/ c = 2 \/ c = 3 \/ c = 4 \/ c = 5 \/ c = 6 \/ c = 7 \/ c = 8
            \/ c = 9 \/ c = 10 \/ c = 11 \/ c = 12 \/ c = 13 \/ c = 14 \/ c = 15 \/ c = 16)
      as Hcases by lia.
    repeat (destruct Hcases as [-> | Hcases]; [vm_compute; intuition discriminate |]).
    subst c. vm_compute. intuition discriminate. }
  destruct (Hdiv _ Hr) as (H1 & H2 & H3).
  split; [exact H1 |]. split.
  - intro Hle. apply Z.div_le_mono; lia.
  - split; [rewrite H2; exact Hfull |]. split; [exact H3 |].
    intros ->. reflexivity.
Qed.






Lemma empty_record_incomplete (st : store) (mission module : value) :
  progress st = [] -> isModuleComplete st mission module = false.
Proof.
  intro H. unfold isModuleComplete. rewrite H.
  destruct (isValidMissionModule mission module); reflexivity.
Qed.

(** X10. [resetProgress] without a truthy confirmation returns [false]
    and changes nothing.  With one it returns [true]: the record is
    empty, the storage holds the serialised empty record, one
    notification has been emitted, no module is complete whatever the
    arguments asked about, the overall progress is 0 and the next
    recommended module is mission 1, module 1. *)
Theorem reset_clears_everything (confirm : value) (st : store) :
  (truthy confirm = false -> resetProgress confirm st = Return false st) /\
  (truthy confirm = true ->
   exists st',
     resetProgress confirm st = Return true st' /\
     progress st' = [] /\
     storage st' = Some (Json (JObject [])) /\
     emitted st' = S (emitted st) /\
     (forall mission module, isModuleComplete st' mission module = false) /\
     getCompletedModules st' = 0 /\
     getOverallProgress st' = 0 /\
     getNextRecommendedModule st' = Some (1, 1)).
Proof.
  unfold resetProgress. split; intros ->; cbn [negb]; [reflexivity |].
  eexists. split; [reflexivity |].
  assert (forall mission module,
             isModuleComplete (emit (saveProgress (withProgress [] st))) mission module
             = false) as Hnone
    by (intros; apply empty_record_incomplete; reflexivity).
  assert (getCompletedModules (emit (saveProgress (withProgress [] st))) = 0) as Hzero.
  { rewrite getCompletedModules_slots. apply completedIn_none.
    intros slot _. apply Hnone. }
  split; [reflexivity |]. split; [reflexivity |]. split; [reflexivity |].
  split; [exact Hnone |]. split; [exact Hzero |]. split.
  - unfold getOverallProgress. rewrite Hzero. reflexivity.
  - unfold getNextRecommendedModule, totalMissions. cbn [forUpTo].
    change (Z.to_nat 5) with 5%nat. cbn [forFrom].
    change (modulesPerMission (intToString 1)) with (Some 3). cbn [forUpTo].
    change (Z.to_nat 3) with 3%nat. cbn [forFrom]. rewrite Hnone. reflexivity.
Qed.

(** X11. A mission argument that parses to a mission of the curriculum
    but is not written as its plain number (such as "01" or " 2") makes
    [isMissionComplete] answer [true] in any store, an empty one
    included: the module count looked up under the raw argument is
    [undefined], so the loop over the modules never runs. *)
Theorem mission_complete_on_unlisted_key (st : store) (mission : string) :
  isValidMission (JString mission) = true ->
  modulesPerMission mission = None ->
  isMissionComplete st (JString mission) = true.
Proof.
  intros Hv Hk. unfold isMissionComplete. rewrite Hv. cbn [negb ToString].
  rewrite Hk. reflexivity.
Qed.

Lemma mission_complete_on_unlisted_key_witness :
  isValidMission (JString "01") = true /\
  modulesPerMission "01" = None /\
  isMissionComplete (constructor None) (JString "01") = true /\
  isMissionComplete (constructor None) (num 1) = false.
Proof.
  split; [reflexivity |]. split; [reflexivity |].
  split; [| vm_compute; reflexivity].
  exact (mission_complete_on_unlisted_key (constructor None) "01" eq_refl eq_refl).
Defined.

End StoreExtras.

(** ** Sessions: what is saved is what is loaded *)

Module SessionFacts.

Import Progress ProgressViews Sessions Spec.
Import PropsFacts JSFacts ProgressFacts ShapeFacts CompletionFacts ImportFacts LoadFacts.
Import SlotFacts.

(** *** More on own properties *)





Lemma setProp_fresh (k : string) (v : value) (o : props) :
  ~ In k (keys o) -> setProp k v o = (o ++ [(k, v)])%list.
Proof.
  induction o as [| [k' v'] o IH]; cbn [setProp keys map fst app In]; intro H;
    [reflexivity |].
  destruct (String.eqb k k') eqn:E.
  - apply String.eqb_eq in E. subst. contradiction H. left. reflexivity.
  - rewrite IH; [reflexivity |]. intro Hin. apply H. right. exact Hin.
Qed.








(** *** The record of a session is tidy *)








(** *** The storage read filter on records it wrote itself *)

Lemma validateModules_id (P : Z -> Prop) (m max : Z) (mods acc : props) :
  max = (if m =? 4 then 4 else 3) ->
  Forall (goodModule P max) mods -> NoDup (keys mods) ->
  (forall k, In k (keys mods) -> ~ In k (keys acc)) ->
  App.validateModules m mods acc = (acc ++ mods)%list.
Proof.
  intros Hmax Hg. revert acc.
  induction Hg as [| [k t] mods (n & z & Hk & Hn & Ht & Hz & _) _ IH];
    intros acc Hnd Hfresh; cbn [App.validateModules]; [symmetry; apply app_nil_r |].
  cbn [fst snd] in Hk, Ht. subst k t.
  cbn [keys map fst] in Hnd. inversion Hnd as [| ? ? Hnew Hnd']; subst.
  rewrite parseIntString_intToString.
  replace (isNaN (Int n) || ltZ (Int n) 1 || gtZ (Int n) (if m =? 4 then 4 else 3))
    with false
    by (symmetry; cbn; apply orb_false_iff; split; apply Z.ltb_ge; lia).
  unfold num. cbn [gtZ].
  replace (0 <? z) with true by (symmetry; apply Z.ltb_lt; exact Hz).
  rewrite setProp_fresh by (apply Hfresh; left; reflexivity).
  rewrite IH.
  - rewrite <- app_assoc. reflexivity.
  - exact Hnd'.
  - intros k Hk Hin. unfold keys in Hin. rewrite map_app in Hin.
    apply in_app_or in Hin as [Hin | [<- | []]].
    + exact (Hfresh k (or_intror Hk) Hin).
    + exact (Hnew Hk).
Qed.

Lemma validateMissions_id (P : Z -> Prop) (p acc : props) :
  Forall (goodMission P) p -> NoDup (keys p) -> Forall uniqueModuleKeys p ->
  (forall k, In k (keys p) -> ~ In k (keys acc)) ->
  App.validateMissions p acc = (acc ++ p)%list.
Proof.
  intro Hg. revert acc.
  induction Hg as [| [k v] p (m & mods & Hk & Hm & Hv & Hmods) _ IH];
    intros acc Hnd Hu Hfresh; cbn [App.validateMissions]; [symmetry; apply app_nil_r |].
  cbn [fst snd] in Hk, Hv. subst k v.
  cbn [keys map fst] in Hnd. inversion Hnd as [| ? ? Hnew Hnd']; subst.
  inversion Hu as [| ? ? Hu1 Hu']; subst.
  rewrite parseIntString_intToString.
  replace (isNaN (Int m) || ltZ (Int m) 1 || gtZ (Int m) 5) with false
    by (symmetry; cbn; apply orb_false_iff; split; apply Z.ltb_ge; lia).
  rewrite (validateModules_id P m (moduleCount m) mods []);
    [| apply moduleCount_eq, Hm | exact Hmods | exact (Hu1 mods eq_refl)
     | intros k _ []].
  cbn [app]. rewrite setProp_fresh by (apply Hfresh; left; reflexivity).
  rewrite IH.
  - rewrite <- app_assoc. reflexivity.
  - exact Hnd'.
  - exact Hu'.
  - intros k Hk Hin. unfold keys in Hin. rewrite map_app in Hin.
    apply in_app_or in Hin as [Hin | [<- | []]].
    + exact (Hfresh k (or_intror Hk) Hin).
    + exact (Hnew Hk).
Qed.

Lemma validateModules_NoDup (m : Z) (mods acc : props) :
  NoDup (keys acc) -> NoDup (keys (App.validateModules m mods acc)).
Proof.
  revert acc. induction mods as [| [k t] mods IH]; intros acc H;
    cbn [App.validateModules]; [exact H |].
  destruct (isNaN _ || _ || _); [exact (IH acc H) |].
  destruct (parseIntString k); [exact (IH acc H) |].
  destruct t; try exact (IH acc H).
  destruct (gtZ n 0); [| exact (IH acc H)].
  apply IH, NoDup_setProp, H.
Qed.

Lemma validateMissions_unique (o acc : props) :
  Forall uniqueModuleKeys acc -> Forall uniqueModuleKeys (App.validateMissions o acc).
Proof.
  revert acc. induction o as [| [k v] o IH]; intros acc H; cbn [App.validateMissions];
    [exact H |].
  destruct (isNaN _ || _ || _); [exact (IH acc H) |].
  destruct (parseIntString k); [exact (IH acc H) |].
  destruct v; try exact (IH acc H).
  apply IH, Forall_setProp; [| exact H].
  intros mods [= <-]. apply validateModules_NoDup. constructor.
Qed.

(** X13. Whatever value the storage holds, the record the storage read
    filter returns is well formed: mission keys are the plain numbers
    1..5, each mission holds an object whose keys are plain module
    numbers within the mission's count, and every timestamp is a positive
    number; no key occurs twice.  Filtering such a record again returns
    it unchanged. *)
Theorem filter_output_well_formed (data : value) :
  Forall (goodMission (fun _ => True)) (App.validateProgressData data) /\
  NoDup (keys (App.validateProgressData data)) /\
  Forall uniqueModuleKeys (App.validateProgressData data) /\
  App.validateProgressData (JObject (App.validateProgressData data))
  = App.validateProgressData data.
Proof.
  assert (Forall (goodMission (fun _ => True)) (App.validateProgressData data)) as Hg.
  { destruct data; cbn [App.validateProgressData]; try constructor.
    apply validateMissions_good; [intros; exact I | constructor]. }
  assert (NoDup (keys (App.validateProgressData data))) as Hnd.
  { destruct data; cbn [App.validateProgressData]; try constructor.
    apply validateMissions_NoDup. constructor. }
  assert (Forall uniqueModuleKeys (App.validateProgressData data)) as Hu.
  { destruct data; cbn [App.validateProgressData]; try constructor.
    apply validateMissions_unique. constructor. }
  split; [exact Hg |]. split; [exact Hnd |]. split; [exact Hu |].
  change (App.validateMissions (App.validateProgressData data) []
          = App.validateProgressData data).
  exact (validateMissions_id _ _ [] Hg Hnd Hu (fun k _ H => H)).
Qed.

(** *** Saving and loading again *)





(** *** Initialisation from any storage content *)

Lemma validateProgressData_good (data : value) :
  Forall (goodMission (fun _ => True)) (App.validateProgressData data) /\
  NoDup (keys (App.validateProgressData data)).
Proof.
  destruct data; cbn [App.validateProgressData]; try (split; constructor).
  split; [apply validateMissions_good; [intros; exact I | constructor] |].
  apply validateMissions_NoDup. constructor.
Qed.

Lemma good_valid_plausible (now : Z) (p : props) :
  Forall (goodMission (fun _ => True)) p -> validMissionEntries now p = true ->
  Forall (goodMission (plausible now)) p.
Proof.
  intros Hg Hv. rewrite Forall_forall in *. intros [k v] Hin.
  destruct (Hg _ Hin) as (m & mods & Hk & Hm & Hv' & Hmods).
  cbn [fst snd] in Hk, Hv'. subst k v.
  destruct (validMissionEntries_all now p Hv _ _ Hin)
    as (m' & mods' & Hp & _ & [= <-] & Hall).
  rewrite parseIntString_intToString in Hp. injection Hp as <-.
  exists m, mods.
  split; [reflexivity |]. split; [exact Hm |]. split; [reflexivity |].
  rewrite Forall_forall in *. intros [kn t] Hin'.
  destruct (Hmods _ Hin') as (n & z & Hkn & Hn & Ht & Hz & _).
  cbn [fst snd] in Hkn, Ht. subst kn t.
  destruct (Hall _ _ Hin') as [_ Hts]. apply isValidTimestamp_num in Hts.
  exists n, z.
  split; [reflexivity |]. split; [exact Hn |]. split; [reflexivity |].
  split; [exact Hz | exact (proj2 Hts)].
Qed.

(** X15. Whatever the storage holds under the progress key (nothing,
    text that does not parse, or any JSON value), constructing a tracker
    and initialising it (loadProgress through the storage read filter,
    then validateProgress) returns without throwing and leaves a record
    that satisfies the record invariants at the clock reading of the
    load. *)
Theorem init_establishes_record_invariants (now : Z) (ls : localStorage) :
  exists st',
    init now (constructor ls) = Return tt st' /\
    recordInvariant now (progress st') = true.
Proof.
  destruct ls as [[| parsed] |].
  - eexists. split; reflexivity.
  - destruct (validateProgressData_good parsed) as [Hg Hnd].
    unfold init, loadProgress, constructor. cbn [storage App.getItem].
    unfold stringify. rewrite (jsonOf_good _ _ Hg).
    unfold isValidProgressData. cbn [truthy isObject negb orb objectEntries spread].
    destruct (validMissionEntries now (App.validateProgressData parsed)) eqn:E.
    + pose proof (good_valid_plausible _ _ Hg E) as Hgood.
      destruct (cleanMissions_good now _ (App.validateProgressData parsed) false Hgood Hnd
                  (fun k v => NoDup_lookup k v _ Hnd) Hgood (fun kv Hin _ => Hin))
        as (p' & h' & Hrun & _ & Hgood' & Hnonempty).
      assert (recordInvariant now p' = true) as Hinv.
      { unfold recordInvariant, isValidProgressData.
        cbn [truthy isObject negb orb objectEntries spread].
        rewrite (good_validMissionEntries _ _ Hgood'), Hnonempty. reflexivity. }
      unfold validateProgress, withProgress. cbn [progress storage emitted].
      rewrite Hrun. destruct h'; (eexists; split; [reflexivity | exact Hinv]).
    + eexists. split; reflexivity.
  - eexists. split; reflexivity.
Qed.

End SessionFacts.

(** ** Routes, buttons, the sidebar and the theme *)

Module RouterExtras.

Import Progress ProgressViews ProgressFacts JSFacts Router RouterUI.

(** *** Routes *)

Lemma takeDigits_uint (d : Decimal.uint) (r : string) :
  takeDigits (NilEmpty.string_of_uint d ++ r)
  = (NilEmpty.string_of_uint d ++ fst (takeDigits r), snd (takeDigits r)).
Proof.
  induction d; cbn [NilEmpty.string_of_uint append takeDigits];
    [destruct (takeDigits r); reflexivity | ..];
    match goal with
    | |- context [isDecimalDigit ?c] => change (isDecimalDigit c) with true
    end;
    cbv iota; rewrite IHd; reflexivity.
Qed.

Lemma intToString_uint (z : Z) :
  0 <= z ->
  exists d, d <> Decimal.Nil /\ intToString z = NilEmpty.string_of_uint d.
Proof.
  intro H. destruct z as [| p | p]; [| | lia].
  - exists (Decimal.D0 Decimal.Nil). split; [discriminate | reflexivity].
  - exists (Pos.to_uint p). split; [apply Unsigned.to_uint_nonnil |].
    unfold intToString. cbn [Z.to_int NilZero.string_of_int].
    apply nilzero_uint, Unsigned.to_uint_nonnil.
Qed.

Lemma uint_nonempty (d : Decimal.uint) :
  d <> Decimal.Nil -> exists c s, NilEmpty.string_of_uint d = String c s.
Proof. destruct d; [congruence | ..]; intros _; eexists; eexists; reflexivity. Qed.

Lemma append_nil_r (s : string) : s ++ "" = s.
Proof. induction s as [| c s IH]; [reflexivity |]. cbn [append]. rewrite IH. reflexivity. Qed.


Lemma takeDigits_uint_end (d : Decimal.uint) :
  takeDigits (NilEmpty.string_of_uint d) = (NilEmpty.string_of_uint d, "").
Proof.
  pose proof (takeDigits_uint d "") as H. cbn [takeDigits fst snd] in H.
  rewrite append_nil_r in H. exact H.
Qed.




(** *** Previous and next *)

(** X17. From a module of the curriculum, a step of navigateModule in
    either direction that goes anywhere goes to a module of the
    curriculum, and the step in the opposite direction from there comes
    back to the module it started from. *)
Theorem navigation_steps_invert (m n d m' n' : Z) :
  inBounds m n -> d = 1 \/ d = -1 ->
  nextTarget m n d = Some (m', n') ->
  inBounds m' n' /\ nextTarget m' n' (- d) = Some (m, n).
Proof.
  intros H Hd. apply inBounds_cases in H. cbn [In] in H.
  repeat (destruct H as [H | H]; [injection H as <- <- |]); [.. | contradiction];
    destruct Hd as [-> | ->]; intro E; vm_compute in E; try discriminate;
    injection E as <- <-; (split; [apply inBounds_intro; cbn; lia | reflexivity]).
Qed.

Lemma navigation_steps_invert_witness :
  inBounds 3 3 /\ (1 = 1 \/ 1 = -1) /\ nextTarget 3 3 1 = Some (4, 1) /\
  inBounds 4 1 /\ nextTarget 4 1 (- 1) = Some (3, 3).
Proof.
  assert (inBounds 3 3) as H by (apply inBounds_intro; cbn; lia).
  split; [exact H |]. split; [left; reflexivity |]. split; [reflexivity |].
  exact (navigation_steps_invert 3 3 1 4 1 H (or_introl eq_refl) eq_refl).
Defined.

(** X18. On the page of a module of the curriculum, a button that is in
    the document is disabled exactly when a click on it would go
    nowhere: the previous button on the first module of mission 1, the
    next button on the last module of mission 5. *)
Theorem buttons_disabled_where_navigation_ends (m n : Z) (b : navButtons) :
  inBounds m n ->
  updateNavigationButtons m n b =
  mkButtons
    (option_map (fun _ => match nextTarget m n (-1) with None => true | Some _ => false end)
                (prevDisabled b))
    (option_map (fun _ => match nextTarget m n 1 with None => true | Some _ => false end)
                (nextDisabled b)).
Proof.
  intro H. apply inBounds_cases in H. cbn [In] in H.
  unfold updateNavigationButtons.
  repeat (destruct H as [H | H]; [injection H as <- <- |]); [.. | contradiction];
    destruct b as [[p |] [q |]]; reflexivity.
Qed.

Lemma buttons_disabled_where_navigation_ends_witness :
  inBounds 5 3 /\
  updateNavigationButtons 5 3 (mkButtons (Some false) (Some false))
  = mkButtons (Some false) (Some true).
Proof.
  assert (inBounds 5 3) as H by (apply inBounds_intro; cbn; lia).
  split; [exact H |].
  exact (buttons_disabled_where_navigation_ends 5 3 (mkButtons (Some false) (Some false)) H).
Defined.

(** *** The sidebar *)

Lemma closeOthers_at (count : nat) (lo m : Z) (d : sidebar) (i : Z) :
  forAcc count lo (fun i d => if negb (i =? m) then closeMission i d else d) d i
  = if (lo <=? i) && (i <? lo + Z.of_nat count) && negb (i =? m)
    then closed (d i) else d i.
Proof.
  revert lo d. induction count as [| count IH]; intros lo d.
  - cbn [forAcc].
    destruct (Z.leb_spec lo i), (Z.ltb_spec i (lo + Z.of_nat 0));
      cbn [andb]; try reflexivity; lia.
  - cbn [forAcc]. rewrite IH.
    destruct (Z.eqb_spec lo m) as [Hlo | Hlo]; cbn [negb]; cbv iota;
      try change (closeMission lo d i) with (if i =? lo then closed (d lo) else d i);
      destruct (Z.leb_spec (lo + 1) i), (Z.ltb_spec i (lo + 1 + Z.of_nat count)),
               (Z.leb_spec lo i), (Z.ltb_spec i (lo + Z.of_nat (S count))),
               (Z.eqb_spec i m), (Z.eqb_spec i lo);
      cbn [andb negb]; subst; try reflexivity; lia.
Qed.

Lemma toggle_collapsed (m : Z) (d : sidebar) (a : string) (t : bool) (i : Z) :
  modulesExpanded (d m) = Some false -> arrowText (d m) = Some a ->
  toggleActive (d m) = Some t ->
  toggleMission m d i =
  if i =? m then mkMission (Some true) (Some expandedArrow) (Some true)
  else if (1 <=? i) && (i <=? 5) then closed (d i) else d i.
Proof.
  intros Hm Ha Ht. unfold toggleMission. rewrite Hm, Ha, Ht.
  unfold setElements. destruct (Z.eqb_spec i m) as [| Hne]; [reflexivity |].
  rewrite closeOthers_at.
  destruct (Z.leb_spec 1 i), (Z.ltb_spec i (1 + Z.of_nat 5)), (Z.leb_spec i 5),
           (Z.eqb_spec i m); cbn [andb negb]; try reflexivity; lia.
Qed.

Lemma toggle_expanded (m : Z) (d : sidebar) (a : string) (t : bool) (i : Z) :
  modulesExpanded (d m) = Some true -> arrowText (d m) = Some a ->
  toggleActive (d m) = Some t ->
  toggleMission m d i =
  if i =? m then mkMission (Some false) (Some collapsedArrow) (Some false) else d i.
Proof.
  intros Hm Ha Ht. unfold toggleMission. rewrite Hm, Ha, Ht. reflexivity.
Qed.

Lemma toggle_absent (m : Z) (d : sidebar) :
  modulesExpanded (d m) = None \/ arrowText (d m) = None \/ toggleActive (d m) = None ->
  toggleMission m d = d.
Proof.
  unfold toggleMission.
  destruct (modulesExpanded (d m)), (arrowText (d m)), (toggleActive (d m));
    intros [H | [H | H]]; try discriminate; reflexivity.
Qed.

Lemma isExpanded_closed (d : sidebar) (i : Z) :
  match modulesExpanded (closed (d i)) with Some b => b | None => false end = false.
Proof. unfold closed. cbn. destruct (modulesExpanded (d i)); reflexivity. Qed.

(** X19. Opening a collapsed mission of the sidebar (its three elements
    being in the document) leaves exactly that mission expanded among
    the five, whatever was expanded before, and its arrow and toggle
    show it. *)
Theorem toggle_opens_one_mission (m : Z) (d : sidebar) (a : string) (t : bool) :
  1 <= m <= 5 ->
  modulesExpanded (d m) = Some false -> arrowText (d m) = Some a ->
  toggleActive (d m) = Some t ->
  toggleMission m d m = mkMission (Some true) (Some expandedArrow) (Some true) /\
  forall i, 1 <= i <= 5 -> isExpanded (toggleMission m d) i = (i =? m).
Proof.
  intros Hr Hm Ha Ht. split.
  - rewrite (toggle_collapsed m d a t m Hm Ha Ht), Z.eqb_refl. reflexivity.
  - intros i Hi. unfold isExpanded. rewrite (toggle_collapsed m d a t i Hm Ha Ht).
    destruct (Z.eqb_spec i m); [reflexivity |].
    replace ((1 <=? i) && (i <=? 5)) with true
      by (symmetry; apply andb_true_iff; split; apply Z.leb_le; lia).
    apply isExpanded_closed.
Qed.

Lemma toggle_opens_one_mission_witness :
  let d : sidebar := fun i =>
    mkMission (Some (i =? 2)) (Some (if i =? 2 then expandedArrow else collapsedArrow))
              (Some (i =? 2)) in
  1 <= 4 <= 5 /\
  modulesExpanded (d 4) = Some false /\ arrowText (d 4) = Some collapsedArrow /\
  toggleActive (d 4) = Some false /\
  toggleMission 4 d 4 = mkMission (Some true) (Some expandedArrow) (Some true) /\
  forall i, 1 <= i <= 5 -> isExpanded (toggleMission 4 d) i = (i =? 4).
Proof.
  intro d. split; [lia |]. split; [reflexivity |]. split; [reflexivity |].
  split; [reflexivity |].
  exact (toggle_opens_one_mission 4 d collapsedArrow false ltac:(lia)
           eq_refl eq_refl eq_refl).
Defined.

Lemma toggle_oneOpen (m : Z) (d : sidebar) :
  1 <= m <= 5 -> oneOpen d -> oneOpen (toggleMission m d).
Proof.
  intros Hr H.
  destruct (modulesExpanded (d m)) as [[|] |] eqn:Em;
    [| | rewrite toggle_absent by (left; exact Em); exact H];
    (destruct (arrowText (d m)) as [a |] eqn:Ea;
     [| rewrite toggle_absent by (right; left; exact Ea); exact H]);
    (destruct (toggleActive (d m)) as [t |] eqn:Et;
     [| rewrite toggle_absent by (right; right; exact Et); exact H]).
  - intros i j Hi Hj. unfold isExpanded.
    rewrite !(toggle_expanded m d a t _ Em Ea Et).
    destruct (Z.eqb_spec i m); [discriminate |].
    destruct (Z.eqb_spec j m); [discriminate |].
    apply H; assumption.
  - intros i j Hi Hj. unfold isExpanded.
    rewrite !(toggle_collapsed m d a t _ Em Ea Et).
    replace ((1 <=? i) && (i <=? 5)) with true
      by (symmetry; apply andb_true_iff; split; apply Z.leb_le; lia).
    replace ((1 <=? j) && (j <=? 5)) with true
      by (symmetry; apply andb_true_iff; split; apply Z.leb_le; lia).
    destruct (Z.eqb_spec i m), (Z.eqb_spec j m); try congruence;
      rewrite ?isExpanded_closed; discriminate.
Qed.

(** X20. The sidebar is an accordion: when at most one of the five
    module lists is expanded, this is still so after toggleMission and
    after ensureMissionExpanded on any of the five missions; and after
    ensureMissionExpanded on a mission whose three elements are in the
    document, that mission is the one expanded. *)
Theorem sidebar_keeps_one_mission_open (m : Z) (d : sidebar) :
  1 <= m <= 5 -> oneOpen d ->
  oneOpen (toggleMission m d) /\
  oneOpen (ensureMissionExpanded m d) /\
  (modulesExpanded (d m) <> None -> arrowText (d m) <> None ->
   toggleActive (d m) <> None ->
   forall i, 1 <= i <= 5 -> isExpanded (ensureMissionExpanded m d) i = (i =? m)).
Proof.
  intros Hr H. split; [exact (toggle_oneOpen m d Hr H) |]. split.
  - unfold ensureMissionExpanded.
    destruct (modulesExpanded (d m)) as [[|] |]; try exact H.
    exact (toggle_oneOpen m d Hr H).
  - intros Hm Ha Ht i Hi. unfold ensureMissionExpanded.
    destruct (modulesExpanded (d m)) as [[|] |] eqn:Em; [| | congruence].
    + destruct (Z.eqb_spec i m) as [-> | Hne].
      * unfold isExpanded. rewrite Em. reflexivity.
      * destruct (isExpanded d i) eqn:Ei; [| reflexivity].
        exfalso. apply Hne. apply H; try assumption.
        unfold isExpanded. rewrite Em. reflexivity.
    + destruct (arrowText (d m)) as [a |] eqn:Ea; [| congruence].
      destruct (toggleActive (d m)) as [t |] eqn:Et; [| congruence].
      unfold isExpanded. rewrite (toggle_collapsed m d a t i Em Ea Et).
      destruct (Z.eqb_spec i m); [reflexivity |].
      replace ((1 <=? i) && (i <=? 5)) with true
        by (symmetry; apply andb_true_iff; split; apply Z.leb_le; lia).
      apply isExpanded_closed.
Qed.

Lemma sidebar_keeps_one_mission_open_witness :
  let d : sidebar := fun i =>
    mkMission (Some (i =? 2)) (Some (if i =? 2 then expandedArrow else collapsedArrow))
              (Some (i =? 2)) in
  1 <= 4 <= 5 /\ oneOpen d /\
  oneOpen (toggleMission 4 d) /\ oneOpen (ensureMissionExpanded 4 d) /\
  isExpanded (ensureMissionExpanded 4 d) 4 = true /\
  isExpanded (ensureMissionExpanded 4 d) 2 = false.
Proof.
  intro d.
  assert (oneOpen d) as H.
  { intros i j _ _. unfold isExpanded, d. cbn [modulesExpanded].
    intros Hi Hj. apply Z.eqb_eq in Hi, Hj. congruence. }
  assert (1 <= 4 <= 5) as Hr by lia.
  destruct (sidebar_keeps_one_mission_open 4 d Hr H) as (H1 & H2 & H3).
  split; [exact Hr |]. split; [exact H |]. split; [exact H1 |]. split; [exact H2 |].
  split.
  - exact (H3 ltac:(discriminate) ltac:(discriminate) ltac:(discriminate) 4 ltac:(lia)).
  - exact (H3 ltac:(discriminate) ltac:(discriminate) ltac:(discriminate) 2 ltac:(lia)).
Defined.

(** X21. When the three elements of each of the five missions tell the
    same story (module list expanded, arrow down and toggle active, or
    none of the three), they still do after toggleMission on any
    mission. *)
Theorem toggle_keeps_elements_in_step (m : Z) (d : sidebar) :
  (forall i, 1 <= i <= 5 -> inStep d i) ->
  forall i, 1 <= i <= 5 -> inStep (toggleMission m d) i.
Proof.
  intros H i Hi.
  destruct (modulesExpanded (d m)) as [[|] |] eqn:Em;
    [| | rewrite toggle_absent by (left; exact Em); exact (H i Hi)];
    (destruct (arrowText (d m)) as [a |] eqn:Ea;
     [| rewrite toggle_absent by (right; left; exact Ea); exact (H i Hi)]);
    (destruct (toggleActive (d m)) as [t |] eqn:Et;
     [| rewrite toggle_absent by (right; right; exact Et); exact (H i Hi)]);
    unfold inStep.
  - rewrite (toggle_expanded m d a t i Em Ea Et).
    destruct (i =? m); [exists false; reflexivity | exact (H i Hi)].
  - rewrite (toggle_collapsed m d a t i Em Ea Et).
    destruct (i =? m); [exists true; reflexivity |].
    replace ((1 <=? i) && (i <=? 5)) with true
      by (symmetry; apply andb_true_iff; split; apply Z.leb_le; lia).
    destruct (H i Hi) as [b ->]. exists false. reflexivity.
Qed.

Lemma toggle_keeps_elements_in_step_witness :
  let d : sidebar := fun i =>
    mkMission (Some (i =? 2)) (Some (if i =? 2 then expandedArrow else collapsedArrow))
              (Some (i =? 2)) in
  (forall i, 1 <= i <= 5 -> inStep d i) /\
  forall i, 1 <= i <= 5 -> inStep (toggleMission 4 d) i.
Proof.
  intro d.
  assert (forall i, 1 <= i <= 5 -> inStep d i) as H
    by (intros i _; exists (i =? 2); reflexivity).
  split; [exact H |].
  exact (toggle_keeps_elements_in_step 4 d H).
Defined.

(** *** The theme *)

(** X22. The theme survives a reload: after toggleTheme, a page loaded
    afresh (its body carrying no [data-theme] yet) over the same storage
    gets from loadTheme the [data-theme] the page had after the
    toggle. *)
Theorem theme_survives_reload (s fresh : themeState) :
  bodyTheme fresh = None ->
  savedTheme fresh = savedTheme (toggleTheme s) ->
  bodyTheme (loadTheme fresh) = bodyTheme (toggleTheme s).
Proof.
  intros Hb Hs. unfold loadTheme. rewrite Hs. unfold toggleTheme.
  destruct (isLight (bodyTheme s)); cbn; [exact Hb | reflexivity].
Qed.

Lemma theme_survives_reload_witness :
  let s := mkTheme None (Some "Dark Mode") None in
  let fresh := mkTheme None (Some "Dark Mode") (Some "light") in
  bodyTheme fresh = None /\ savedTheme fresh = savedTheme (toggleTheme s) /\
  bodyTheme (loadTheme fresh) = Some "light".
Proof.
  intros s fresh. split; [reflexivity |]. split; [reflexivity |].
  exact (theme_survives_reload s fresh eq_refl eq_refl).
Defined.

End RouterExtras.

(** ** Loading module content, and the sanitizer where it works *)

Module ContentExtras.

Import JSFacts Content ContentFacts ContentLoader RouterUI RouterExtras.

(** *** Cache keys *)

Lemma uint_head_digit (d : Decimal.uint) (c : ascii) (s : string) :
  NilEmpty.string_of_uint d = String c s -> isDecimalDigit c = true.
Proof.
  intro H. pose proof (takeDigits_uint_end d) as E. rewrite H in E.
  cbn [takeDigits] in E. destruct (isDecimalDigit c); [reflexivity | discriminate].
Qed.

Lemma uint_split (d d' : Decimal.uint) (r r' : string) :
  (NilEmpty.string_of_uint d ++ String "-" r
   = NilEmpty.string_of_uint d' ++ String "-" r')%string ->
  NilEmpty.string_of_uint d = NilEmpty.string_of_uint d' /\ r = r'.
Proof.
  intro H. apply (f_equal takeDigits) in H. rewrite !takeDigits_uint in H.
  cbn [takeDigits] in H. change (isDecimalDigit "-") with false in H.
  cbv iota in H. cbn [fst snd] in H. rewrite !append_nil_r in H.
  injection H as H1 H2. split; [exact H1 | exact H2].
Qed.

Lemma intToString_forms (z : Z) :
  exists d, d <> Decimal.Nil /\
    (intToString z = NilEmpty.string_of_uint d \/
     intToString z = String "-" (NilEmpty.string_of_uint d)).
Proof.
  destruct z as [| p | p].
  - exists (Decimal.D0 Decimal.Nil). split; [discriminate | left; reflexivity].
  - destruct (intToString_uint (Z.pos p) ltac:(lia)) as (d & Hd & E).
    exists d. split; [exact Hd | left; exact E].
  - exists (Pos.to_uint p). split; [apply Unsigned.to_uint_nonnil |]. right.
    unfold intToString. cbn [Z.to_int NilZero.string_of_int].
    rewrite nilzero_uint by apply Unsigned.to_uint_nonnil. reflexivity.
Qed.

Lemma numeral_split (a a' : Z) (r r' : string) :
  (intToString a ++ String "-" r = intToString a' ++ String "-" r')%string ->
  a = a' /\ r = r'.
Proof.
  intro H.
  destruct (intToString_forms a) as (d & Hd & [E | E]);
    destruct (intToString_forms a') as (d' & Hd' & [E' | E']);
    pose proof H as H0; rewrite E, E' in H0.
  - destruct (uint_split _ _ _ _ H0) as [H1 H2].
    split; [apply intToString_inj; congruence | exact H2].
  - exfalso. destruct (uint_nonempty d Hd) as (c & s & Ec).
    pose proof (uint_head_digit d c s Ec) as Hc. rewrite Ec in H0.
    cbn [append] in H0. injection H0 as -> _. discriminate.
  - exfalso. destruct (uint_nonempty d' Hd') as (c & s & Ec).
    pose proof (uint_head_digit d' c s Ec) as Hc. rewrite Ec in H0.
    cbn [append] in H0. injection H0 as <- _. discriminate.
  - cbn [append] in H0. injection H0 as H0.
    destruct (uint_split _ _ _ _ H0) as [H1 H2].
    split; [apply intToString_inj; congruence | exact H2].
Qed.

Lemma cacheKey_inj (m n m' n' : Z) :
  cacheKey m n = cacheKey m' n' -> m = m' /\ n = n'.
Proof.
  unfold cacheKey. cbn [append]. intro H. injection H as H.
  destruct (numeral_split _ _ _ _ H) as [H1 H2].
  split; [exact H1 | exact (intToString_inj _ _ H2)].
Qed.

(** *** The cache *)

(** X23. Content that was fetched once is served from the cache from
    then on: when the cache has nothing for a module and the fetch
    delivers, loadModuleContent returns the text fetched, and every
    later load of that module returns the same text and leaves the cache
    as it is, whatever the network does by then. *)
Theorem fetched_content_served_from_cache
    (net later : network) (m n status : Z) (text : string) (c : cache) :
  c (cacheKey m n) = None ->
  net (contentUrl m n) = Response true status (Some text) ->
  fst (loadModuleContent net m n c) = text /\
  loadModuleContent later m n (snd (loadModuleContent net m n c))
  = (text, snd (loadModuleContent net m n c)).
Proof.
  intros Hc Hnet.
  assert (loadModuleContent net m n c = (text, cacheSet (cacheKey m n) text c)) as ->
    by (unfold loadModuleContent; rewrite Hc, Hnet; reflexivity).
  cbn [fst snd]. split; [reflexivity |].
  unfold loadModuleContent, cacheSet. rewrite String.eqb_refl. reflexivity.
Qed.

Lemma fetched_content_served_from_cache_witness :
  let net : network := fun _ => Response true 200 (Some "<h1>Prompting</h1>") in
  let later : network := fun _ => NetworkError in
  let c : cache := fun _ => None in
  c (cacheKey 2 1) = None /\
  net (contentUrl 2 1) = Response true 200 (Some "<h1>Prompting</h1>") /\
  fst (loadModuleContent net 2 1 c) = "<h1>Prompting</h1>" /\
  loadModuleContent later 2 1 (snd (loadModuleContent net 2 1 c))
  = ("<h1>Prompting</h1>", snd (loadModuleContent net 2 1 c)).
Proof.
  intros net later c. split; [reflexivity |]. split; [reflexivity |].
  exact (fetched_content_served_from_cache net later 2 1 200 "<h1>Prompting</h1>" c
           eq_refl eq_refl).
Defined.

(** X24. The cache never mixes modules up: loading one module, whatever
    comes of it, does not change what a load of a different module
    resolves to. *)
Theorem cache_keeps_modules_apart
    (net later : network) (m n m' n' : Z) (c : cache) :
  (m, n) <> (m', n') ->
  fst (loadModuleContent later m' n' (snd (loadModuleContent net m n c)))
  = fst (loadModuleContent later m' n' c).
Proof.
  intro Hne.
  assert (String.eqb (cacheKey m' n') (cacheKey m n) = false) as Hkey.
  { apply String.eqb_neq. intro H. apply Hne.
    destruct (cacheKey_inj _ _ _ _ H) as [-> ->]. reflexivity. }
  assert (snd (loadModuleContent net m n c) = c \/
          exists text, snd (loadModuleContent net m n c)
                       = cacheSet (cacheKey m n) text c) as [-> | [text ->]];
    [| reflexivity |].
  { unfold loadModuleContent.
    destruct (c (cacheKey m n)) as [content |]; [left; reflexivity |].
    destruct (net (contentUrl m n)) as [| [|] status [text |]];
      try (left; reflexivity).
    right. exists text. reflexivity. }
  unfold loadModuleContent, cacheSet. rewrite Hkey.
  destruct (c (cacheKey m' n')); [reflexivity |].
  destruct (later (contentUrl m' n')) as [| [|] status' [text' |]]; reflexivity.
Qed.

Lemma cache_keeps_modules_apart_witness :
  let net : network := fun _ => Response true 200 (Some "one") in
  let later : network := fun _ => Response true 200 (Some "two") in
  let c : cache := fun _ => None in
  (2, 1) <> (2, 2) /\
  fst (loadModuleContent later 2 2 (snd (loadModuleContent net 2 1 c))) = "two".
Proof.
  intros net later c.
  assert ((2, 1) <> (2, 2)) as H by discriminate.
  split; [exact H |].
  exact (cache_keeps_modules_apart net later 2 1 2 2 c H).
Defined.

(** X25. A load that fails is not remembered: when the cache has
    nothing for a module and the fetch does not deliver (the request
    fails, the response is not ok, or its body cannot be read),
    loadModuleContent resolves to the placeholder for that module
    without throwing, and a later load behaves as if the failed one had
    not happened, so it asks the network again. *)
Theorem failed_load_is_retried
    (net later : network) (m n : Z) (c : cache) :
  c (cacheKey m n) = None ->
  fails (net (contentUrl m n)) = true ->
  fst (loadModuleContent net m n c) = getPlaceholderContent m n /\
  loadModuleContent later m n (snd (loadModuleContent net m n c))
  = match later (contentUrl m n) with
    | Response true _ (Some content) =>
        (content, cacheSet (cacheKey m n) content c)
    | _ => (getPlaceholderContent m n, c)
    end.
Proof.
  intros Hc Hnet.
  assert (loadModuleContent net m n c = (getPlaceholderContent m n, c)) as ->
    by (unfold loadModuleContent; rewrite Hc;
        destruct (net (contentUrl m n)) as [| [|] status [text |]];
        try discriminate; reflexivity).
  cbn [fst snd]. split; [reflexivity |].
  unfold loadModuleContent. rewrite Hc. reflexivity.
Qed.

Lemma failed_load_is_retried_witness :
  let net : network := fun _ => Response false 404 (Some "Not Found") in
  let later : network := fun _ => Response true 200 (Some "<h1>Agents</h1>") in
  let c : cache := fun _ => None in
  c (cacheKey 4 4) = None /\
  fails (net (contentUrl 4 4)) = true /\
  fst (loadModuleContent net 4 4 c) = getPlaceholderContent 4 4 /\
  fst (loadModuleContent later 4 4 (snd (loadModuleContent net 4 4 c)))
  = "<h1>Agents</h1>".
Proof.
  intros net later c. split; [reflexivity |]. split; [reflexivity |].
  destruct (failed_load_is_retried net later 4 4 c eq_refl eq_refl) as [H1 H2].
  split; [exact H1 |]. rewrite H2. reflexivity.
Defined.

(** *** The attribute loop without neighbouring handlers *)

Lemma adjacentHandlers_tail (a : attribute) (rest : list attribute) :
  adjacentHandlers (a :: rest) = false -> adjacentHandlers rest = false.
Proof.
  cbn [adjacentHandlers]. destruct rest as [| b rest]; [reflexivity |].
  intro H. apply orb_false_iff in H. exact (proj2 H).
Qed.

Lemma skipNext_filter (attrs : list attribute) :
  adjacentHandlers attrs = false ->
  skipNext attrs = filter (fun a => negb (isHandler a)) attrs.
Proof.
  assert (forall n attrs, (List.length attrs <= n)%nat ->
            adjacentHandlers attrs = false ->
            skipNext attrs = filter (fun a => negb (isHandler a)) attrs) as H.
  { induction n as [| n IH]; intros [| a rest] Hlen Hadj; try reflexivity;
      cbn [List.length] in Hlen; [lia |].
    cbn [skipNext filter]. unfold isHandler at 1.
    destruct (String.prefix "on" (fst a)) eqn:Ea; cbn [negb].
    - destruct rest as [| b rest']; [reflexivity |].
      cbn [adjacentHandlers] in Hadj. unfold isHandler at 1 in Hadj.
      rewrite Ea in Hadj. cbn [andb] in Hadj.
      apply orb_false_iff in Hadj as [Hb Hrest].
      cbn [filter]. rewrite Hb. cbn [negb]. f_equal.
      destruct n as [| n]; [cbn [List.length] in Hlen; lia |].
      apply IH; [cbn [List.length] in Hlen; lia |].
      exact (adjacentHandlers_tail b rest' Hrest).
    - f_equal. apply IH; [lia | exact (adjacentHandlers_tail a rest Hadj)]. }
  exact (H (List.length attrs) attrs (Nat.le_refl _)).
Qed.

Lemma distinctNames_NoDup (attrs : list attribute) :
  distinctNames attrs = true -> NoDup (map fst attrs).
Proof.
  induction attrs as [| a rest IH]; cbn [distinctNames map]; intro H; [constructor |].
  apply andb_true_iff in H as [Ha Hrest]. constructor; [| exact (IH Hrest)].
  intro Hin. apply in_map_iff in Hin as (b & Hb & Hin).
  apply negb_true_iff in Ha.
  assert (existsb (fun b => String.eqb (fst a) (fst b)) rest = true) as Hex
    by (apply existsb_exists; exists b; split;
        [exact Hin | apply String.eqb_eq; symmetry; exact Hb]).
  congruence.
Qed.

Lemma removeHandlers_filter (attrs : list attribute) :
  distinctNames attrs = true -> adjacentHandlers attrs = false ->
  removeHandlers attrs = filter (fun a => negb (isHandler a)) attrs.
Proof.
  intros Hd Ha. rewrite removeHandlers_skipNext by (apply distinctNames_NoDup, Hd).
  apply skipNext_filter, Ha.
Qed.


(** X26. On an element whose event-handler attributes do not stand
    next to each other, the attribute loop does what its comment says:
    it removes every attribute whose name begins with [on] and keeps all
    the others, in their order. *)
Theorem handlers_removed_when_apart (attrs : list attribute) :
  distinctNames attrs = true -> adjacentHandlers attrs = false ->
  removeHandlers attrs = filter (fun a => negb (isHandler a)) attrs.
Proof. exact (removeHandlers_filter attrs). Qed.

Lemma handlers_removed_when_apart_witness :
  let attrs := [("onclick", "a()"); ("src", "x.png"); ("onload", "b()"); ("alt", "x")] in
  distinctNames attrs = true /\ adjacentHandlers attrs = false /\
  removeHandlers attrs = [("src", "x.png"); ("alt", "x")].
Proof.
  intro attrs. split; [reflexivity |]. split; [reflexivity |].
  exact (handlers_removed_when_apart attrs eq_refl eq_refl).
Defined.

(** *** The sanitizer on whole fragments *)







End ContentExtras.

(** ** Subscribing and unsubscribing *)

Module EventFacts.

Import Events.

Lemma emit_calls (throws : callback -> bool) (event : string) (l : listeners) :
  fst (emit throws event l) = match l event with Some cbs => cbs | None => [] end.
Proof.
  unfold emit. destruct (l event) as [cbs |]; [| reflexivity].
  assert (forall log,
            fst (fold_left
                   (fun log cb =>
                      if throws cb then ((fst log ++ [cb])%list, S (snd log))
                      else ((fst log ++ [cb])%list, snd log)) cbs log)
            = (fst log ++ cbs)%list) as H.
  { induction cbs as [| c cbs IH]; intro log; cbn [fold_left].
    - symmetry. apply app_nil_r.
    - rewrite IH. destruct (throws c); cbn [fst]; rewrite <- app_assoc; reflexivity. }
  exact (H ([], O)).
Qed.




Lemma setListeners_same (event : string) (cbs : list callback) (l : listeners) :
  setListeners event cbs l event = Some cbs.
Proof. unfold setListeners. rewrite String.eqb_refl. reflexivity. Qed.

Lemma indexOfFrom_last (i : Z) (cb : callback) (cbs : list callback) :
  ~ In cb cbs ->
  indexOfFrom i cb (cbs ++ [cb]) = i + Z.of_nat (List.length cbs).
Proof.
  revert i. induction cbs as [| c cbs IH]; intros i H; cbn [app indexOfFrom List.length].
  - rewrite Nat.eqb_refl. lia.
  - destruct (Nat.eqb_spec c cb) as [-> | _]; [exfalso; apply H; left; reflexivity |].
    rewrite IH by (intro Hin; apply H; right; exact Hin). lia.
Qed.

Lemma splice_last (cb : callback) (cbs : list callback) :
  splice (Z.of_nat (List.length cbs)) (cbs ++ [cb]) = cbs.
Proof.
  unfold splice. rewrite Nat2Z.id.
  rewrite firstn_app, firstn_all, Nat.sub_diag. cbn [firstn].
  rewrite skipn_all2 by (rewrite length_app; cbn; lia).
  rewrite !app_nil_r. reflexivity.
Qed.

(** X30. Subscribing a callback that was not subscribed to the event
    and unsubscribing it again leaves every emit as it was: the same
    callbacks are called in the same order, for every event. *)
Theorem subscribe_then_unsubscribe
    (throws : callback -> bool) (event : string) (cb : callback) (l : listeners) :
  ~ In cb (fst (emit throws event l)) ->
  forall e, emit throws e (off event cb (on event cb l)) = emit throws e l.
Proof.
  rewrite emit_calls. intros Hfresh e.
  assert (forall cbs, ~ In cb cbs ->
            (indexOfFrom 0 cb (cbs ++ [cb]) >? -1) = true /\
            splice (indexOfFrom 0 cb (cbs ++ [cb])) (cbs ++ [cb]) = cbs) as Hlast.
  { intros cbs H. rewrite (indexOfFrom_last 0 cb cbs H). cbn [Z.add].
    split; [apply Z.gtb_lt; lia | apply splice_last]. }
  unfold emit, off, on.
  destruct (l event) as [cbs |] eqn:E.
  - rewrite E, setListeners_same.
    destruct (Hlast cbs Hfresh) as [-> ->].
    unfold setListeners. destruct (String.eqb_spec e event) as [-> |]; [| reflexivity].
    rewrite E. reflexivity.
  - rewrite setListeners_same. cbn [app]. rewrite setListeners_same.
    destruct (Hlast [] Hfresh) as [H1 H2]. cbn [app] in H1, H2.
    rewrite H1, H2.
    unfold setListeners. destruct (String.eqb_spec e event) as [-> |]; [| reflexivity].
    rewrite E. reflexivity.
Qed.

Lemma subscribe_then_unsubscribe_witness :
  let throws : callback -> bool := fun cb => Nat.eqb cb 1 in
  let l : listeners := on "progressChanged" 2%nat (on "progressChanged" 1%nat (fun _ => None)) in
  ~ In 7%nat (fst (emit throws "progressChanged" l)) /\
  emit throws "progressChanged" (off "progressChanged" 7%nat (on "progressChanged" 7%nat l))
  = ([1; 2]%nat, 1%nat).
Proof.
  intros throws l.
  assert (~ In 7%nat (fst (emit throws "progressChanged" l))) as H
    by (cbn; intros [H | [H | []]]; discriminate).
  split; [exact H |].
  rewrite (subscribe_then_unsubscribe throws "progressChanged" 7%nat l H).
  reflexivity.
Defined.

End EventFacts.
